(** * MCServerStatus: a shallow embedding of [MCServerStatus.py]

    The bot keeps a list of tracked Minecraft servers ([client.servers]),
    mirrors the status of each one into a Discord message, and saves the list
    to [info.json].  This file embeds the classes [MCServer] and
    [MCStatusClient] and the commands of [main] as functions over an explicit
    world (the registry, the snapshot file and the trace of what the bot sent
    out), and proves the properties of the specification about them.

    What the libraries [discord], [mcstatus], [json] and [datetime] answer is
    not part of the program: it is an input, the record [Env]. *)

From Stdlib Require Import String Ascii List ZArith Lia Bool Arith DecimalString.
Import ListNotations.
Open Scope string_scope.

(* ================================================================== *)
(** ** Python values *)

(** The text of an exception, [str(e)]. *)
Definition exn := string.

(** What a call gives: a value, or a raised exception. *)
Inductive Result (A : Type) : Type :=
| Ok (a : A)
| Raise (e : exn).
Arguments Ok {A} a.
Arguments Raise {A} e.

(** ['\n'] *)
Definition nl : string := String (ascii_of_nat 10) EmptyString.

(** [f'{n}'] for an [int]. *)
Definition str_of_int (n : Z) : string := NilZero.string_of_int (Z.to_int n).

(** [f'{n}'] for a field of a [datetime] (never negative). *)
Definition str_of_nat (n : nat) : string := NilZero.string_of_uint (Nat.to_uint n).

(** [sub in s] on strings: [sub] occurs in [s] at some position. *)
Fixpoint str_in (sub s : string) : bool :=
  if prefix sub s then true
  else match s with
       | EmptyString => false
       | String _ s' => str_in sub s'
       end.

(** The [AttributeError] of an attribute read on [None]. *)
Definition AttributeError (attr : string) : exn :=
  "'NoneType' object has no attribute '" ++ attr ++ "'".

(** The [TypeError] of a [for] loop over [None]. *)
Definition TypeError_not_iterable : exn := "'NoneType' object is not iterable".

(* ================================================================== *)
(** ** The data model *)

(** [discord.Guild], [discord.TextChannel], [discord.Message]: what the
    program reads of them is their ids and the path message, channel, guild. *)
Record Guild := { guild_id : Z }.
Record TextChannel := { channel_id : Z; channel_guild : Guild }.
Record Message := { message_id : Z; message_channel : TextChannel }.

(** [message.guild] *)
Definition message_guild (m : Message) : Guild := channel_guild (message_channel m).

(** [discord.Embed(title=..., description=..., color=...)] *)
Record Embed := { title : string; description : string; color : Z }.

(** [Color.blue()] *)
Definition Color_blue : Z := 3447003%Z.

(** [discord.Interaction]: the channel and the guild a command comes from
    (the commands are taken to be used in a guild, where [interaction.guild]
    is not [None]). *)
Record Interaction := { interaction_guild : Guild; interaction_channel : TextChannel }.

(** [mcstatus]: the answer of [JavaServer.status()].  [sample] is [None] when
    the server sends no list of players. *)
Record JavaStatusPlayer := { player_name : string }.
Record JavaStatusPlayers := { online : Z; sample : option (list JavaStatusPlayer) }.
Record JavaStatusResponse := { players : JavaStatusPlayers }.

(** [class MCServer].  [self.channel] and [self.guild] are always set
    together with [self.message], to [message.channel] and [message.guild];
    [self.server] is the handle [JavaServer.lookup(self.address)]. *)
Record MCServer := { name : string; address : string; message : option Message }.

Definition channel (self : MCServer) : option TextChannel :=
  option_map message_channel (message self).
Definition guild (self : MCServer) : option Guild :=
  option_map message_guild (message self).

(** A record of [info.json]: the dict [write_json_file] builds. *)
Record Item := {
  item_name : string;
  item_address : string;
  item_guild_id : Z;
  item_channel_id : Z;
  item_message_id : Z
}.

(** [datetime.datetime.now().astimezone()], the three fields that are read. *)
Record Time := { hour : nat; minute : nat; second : nat }.

(** What the bot sends out, in the order it happens. *)
Inductive Event :=
| Log (time : Time) (msg : string)           (* print(f'{get_log_time()}> {msg}') *)
| Sent (m : Message) (content : string)      (* m = await channel.send(content=content) *)
| Edited (m : Message) (content : string)    (* await m.edit(content=content) *)
| Responded (content : string) (embed : option Embed).
                                             (* await interaction.response.send_message(...) *)

(** The world the program runs in: [client.servers], the file [info.json]
    ([None] when it does not exist) and the trace. *)
Record World := {
  servers : list MCServer;
  info_json : option (list Item);
  trace : list Event
}.

Definition add_event (ev : Event) (w : World) : World :=
  {| servers := servers w; info_json := info_json w; trace := trace w ++ [ev] |}.
Definition set_servers (l : list MCServer) (w : World) : World :=
  {| servers := l; info_json := info_json w; trace := trace w |}.
Definition set_info_json (data : list Item) (w : World) : World :=
  {| servers := servers w; info_json := Some data; trace := trace w |}.

(** The answers of the outside world during one call.
    - [client_user]: [f'{client.user}'], the name of the bot;
    - [now n]: the clock when the trace holds [n] events;
    - [JavaServer_lookup address]: the exception of [JavaServer.lookup], if any;
    - [JavaServer_status address]: what [server.status()] gives;
    - [channel_send channel content]: the id of the message created, or the
      exception;
    - [message_edit m content]: the exception of [m.edit], if any;
    - [get_guild], [get_channel], [fetch_message]: resolution by id; the first
      two give [None] for an unknown id (here [false]), the third raises.  An
      object resolved by id carries that id. *)
Record Env := {
  client_user : string;
  now : nat -> Time;
  JavaServer_lookup : string -> option exn;
  JavaServer_status : string -> Result JavaStatusResponse;
  channel_send : TextChannel -> string -> Result Z;
  message_edit : Message -> string -> option exn;
  get_guild : Z -> bool;
  get_channel : Z -> Z -> bool;
  fetch_message : Z -> Z -> Z -> option exn
}.

(* ================================================================== *)
(** ** Effects: state and exceptions *)

(** A computation changes the world and returns or raises; what it did before
    it raised stays done. *)
Definition M (A : Type) : Type := World -> Result A * World.

Definition ret {A} (a : A) : M A := fun w => (Ok a, w).
Definition raise {A} (e : exn) : M A := fun w => (Raise e, w).
Definition bind {A B} (m : M A) (k : A -> M B) : M B :=
  fun w => match m w with
           | (Ok a, w') => k a w'
           | (Raise e, w') => (Raise e, w')
           end.
Definition lift {A} (r : Result A) : M A := fun w => (r, w).

(** [try: body / except Exception as e: handler e] *)
Definition try_except {A} (body : M A) (handler : exn -> M A) : M A :=
  fun w => match body w with
           | (Ok a, w') => (Ok a, w')
           | (Raise e, w') => handler e w'
           end.

Notation "x <- m ;; k" := (bind m (fun x => k))
  (at level 61, m at next level, right associativity).
Notation "m ;; k" := (bind m (fun _ => k))
  (at level 61, right associativity).

(** [for x in l: body x] *)
Fixpoint for_each {A} (l : list A) (body : A -> M unit) : M unit :=
  match l with
  | [] => ret tt
  | x :: rest => body x ;; for_each rest body
  end.

Definition emit (ev : Event) : M unit := fun w => (Ok tt, add_event ev w).

(* ================================================================== *)
(** ** [get_log_time] and the log *)

Definition get_log_time (time : Time) : string :=
  let output := "" in
  let output := if (hour time <? 10)%nat then output ++ "0" else output in
  let output := output ++ str_of_nat (hour time) ++ ":" in
  let output := if (minute time <? 10)%nat then output ++ "0" else output in
  let output := output ++ str_of_nat (minute time) ++ ":" in
  let output := if (second time <? 10)%nat then output ++ "0" else output in
  let output := output ++ str_of_nat (second time) in
  output.

(** The line a [Log] event puts on the standard output. *)
Definition printed_line (time : Time) (msg : string) : string :=
  get_log_time time ++ "> " ++ msg.

(** [print(f'{get_log_time()}> {msg}')] *)
Definition print (env : Env) (msg : string) : M unit :=
  fun w => emit (Log (now env (length (trace w))) msg) w.

(** [await interaction.response.send_message(content, embed=embed)]; it is
    the last step of every command, and taken to go through. *)
Definition send_message (content : string) (embed : option Embed) : M unit :=
  emit (Responded content embed).

(** [await m.edit(content=content)] *)
Definition edit (env : Env) (m : Message) (content : string) : M unit :=
  match message_edit env m content with
  | Some e => raise e
  | None => emit (Edited m content)
  end.

(** [await channel.send(content=content)] *)
Definition send (env : Env) (ch : TextChannel) (content : string) : M Message :=
  match channel_send env ch content with
  | Raise e => raise e
  | Ok id =>
      let m := {| message_id := id; message_channel := ch |} in
      emit (Sent m content) ;; ret m
  end.

(* ================================================================== *)
(** ** [class MCServer] *)

(** [MCServer(name, address, message=message)]: the constructor raises what
    [JavaServer.lookup(self.address)] raises. *)
Definition MCServer_init (env : Env) (name' address' : string)
    (message' : option Message) : M MCServer :=
  match JavaServer_lookup env address' with
  | Some e => raise e
  | None => ret {| name := name'; address := address'; message := message' |}
  end.

(** [MCServer.get_content]: the only effect is the status query, so the
    result is a value or the exception. *)
Definition get_content (env : Env) (self : MCServer) : Result string :=
  match JavaServer_status env (address self) with
  | Raise e => Raise e
  | Ok status =>
      let content :=
        name self ++ " is **online** with " ++ str_of_int (online (players status))
        ++ " online player" in
      if (online (players status) =? 0)%Z then Ok (content ++ "s.")
      else
        let content :=
          if (online (players status) =? 1)%Z
          then content ++ "." ++ nl ++ nl ++ "Player:" ++ nl
          else content ++ "s." ++ nl ++ nl ++ "Players:" ++ nl in
        match sample (players status) with
        | None => Raise TypeError_not_iterable
        | Some sample' =>
            Ok (fold_left (fun content player => content ++ player_name player ++ nl)
                  sample' content)
        end
  end.

(** [MCServer.handle_exception] *)
Definition handle_exception (env : Env) (self : MCServer) (e : exn) : M unit :=
  match message self with
  | None => raise (AttributeError "edit")
  | Some m =>
      edit env m (name self ++ " is **offline**: " ++ e) ;;
      print env ("Error looking up server " ++ name self ++ " (" ++ address self
                 ++ ") status: " ++ e)
  end.

(** [MCServer.make_message]; the object is updated in place, here the updated
    object is returned. *)
Definition make_message (env : Env) (self : MCServer) (ch : TextChannel) : M MCServer :=
  match message self with
  | Some _ => ret self
  | None =>
      try_except
        (content <- lift (get_content env self) ;;
         m <- send env ch content ;;
         ret {| name := name self; address := address self; message := Some m |})
        (fun e => handle_exception env self e ;; ret self)
  end.

(** [MCServer.get_status] *)
Definition get_status (env : Env) (self : MCServer) : M unit :=
  try_except
    (content <- lift (get_content env self) ;;
     match message self with
     | None => raise (AttributeError "edit")
     | Some m => edit env m content
     end)
    (handle_exception env self).

(* ================================================================== *)
(** ** [class MCStatusClient] *)

Definition FILE_PATH : string := "info.json".

(** The inner loop of [read_json_file]: [found] becomes true, and a line is
    logged, at every server with the name and the address of the item. *)
Fixpoint recognize (env : Env) (item : Item) (l : list MCServer) (found : bool) : M bool :=
  match l with
  | [] => ret found
  | server :: rest =>
      if (name server =? item_name item) && (address server =? item_address item)
      then print env ("Recognized server " ++ item_name item ++ " with message id "
                      ++ str_of_int (item_message_id item)) ;;
           recognize env item rest true
      else recognize env item rest found
  end.

(** The [try] block of [read_json_file]. *)
Definition recover (env : Env) (item : Item) : M unit :=
  (if get_guild env (item_guild_id item) then ret tt
   else raise (AttributeError "get_channel")) ;;
  (if get_channel env (item_guild_id item) (item_channel_id item) then ret tt
   else raise (AttributeError "fetch_message")) ;;
  match fetch_message env (item_guild_id item) (item_channel_id item) (item_message_id item) with
  | Some e => raise e
  | None =>
      let message' :=
        {| message_id := item_message_id item;
           message_channel :=
             {| channel_id := item_channel_id item;
                channel_guild := {| guild_id := item_guild_id item |} |} |} in
      server <- MCServer_init env (item_name item) (item_address item) (Some message') ;;
      (fun w => (Ok tt, set_servers (servers w ++ [server]) w)) ;;
      print env ("Recovered server " ++ item_name item ++ " with message id "
                 ++ str_of_int (item_message_id item))
  end.

(** The body of [for item in data]. *)
Definition load_item (env : Env) (item : Item) : M unit :=
  found <- (fun w => recognize env item (servers w) false w) ;;
  if negb found
  then try_except (recover env item)
         (fun e => print env ("Failed to load server message: " ++ e))
  else ret tt.

(** [MCStatusClient.read_json_file], on a file that is missing or holds what
    [write_json_file] writes: a list of records, each with its five keys.
    ([json.load] on a file cut short, and [item['name']] on a record without
    that key, raise outside the [try]; a file is taken here as the list of
    records it holds, so these are outside this embedding.) *)
Definition read_json_file (env : Env) : M unit :=
  fun w =>
    match info_json w with
    | None => print env (FILE_PATH ++ " does not exist yet") w
    | Some data =>
        (print env ("Reading " ++ FILE_PATH) ;;
         for_each data (load_item env) ;;
         print env ("Successfully loaded " ++ FILE_PATH)) w
    end.

(** The loop of [write_json_file]: [server.guild.id] raises on a server that
    has no message. *)
Fixpoint server_dicts_of (l : list MCServer) (server_dicts : list Item) : Result (list Item) :=
  match l with
  | [] => Ok server_dicts
  | server :: rest =>
      match message server with
      | None => Raise (AttributeError "id")
      | Some m =>
          let server_dict :=
            {| item_name := name server;
               item_address := address server;
               item_guild_id := guild_id (message_guild m);
               item_channel_id := channel_id (message_channel m);
               item_message_id := message_id m |} in
          server_dicts_of rest (server_dicts ++ [server_dict])
      end
  end.

(** [MCStatusClient.write_json_file]: the file is opened, and so replaced,
    only after the loop.  [open] and [json.dump] are taken to go through: a
    write that the file system refuses is outside this embedding. *)
Definition write_json_file (env : Env) : M unit :=
  fun w =>
    match server_dicts_of (servers w) [] with
    | Raise e => (Raise e, w)
    | Ok server_dicts =>
        print env ("Successfully wrote " ++ FILE_PATH) (set_info_json server_dicts w)
    end.

(* ================================================================== *)
(** ** [main]: the poll loop and the commands *)

(** [poll_servers], one tick. *)
Definition poll_servers (env : Env) : M unit :=
  fun w => for_each (servers w) (get_status env) w.

(** [on_ready]: the snapshot is read only into an empty registry.  The start
    of the poll loop is the scheduler's; its ticks are [poll_servers]. *)
Definition on_ready (env : Env) : M unit :=
  (fun w => match servers w with
            | [] => read_json_file env w
            | _ :: _ => ret tt w
            end) ;;
  print env (client_user env ++ " has connected to Discord!").

(** The link of the embed that [addserver_command] answers a duplicate with. *)
Definition message_link (m : Message) : string :=
  "https://discord.com/channels/" ++ str_of_int (guild_id (message_guild m)) ++ "/"
  ++ str_of_int (channel_id (message_channel m)) ++ "/" ++ str_of_int (message_id m).

(** [addserver_command]: the loop returns at the first server with the
    address. *)
Definition addserver_command (env : Env) (interaction : Interaction)
    (ip name' : string) (port : Z) : M unit :=
  fun w =>
    let address' := ip ++ ":" ++ str_of_int port in
    match find (fun server => address server =? address') (servers w) with
    | Some server =>
        match message server with
        | None => raise (AttributeError "id") w
        | Some m =>
            let embed :=
              {| title := "Status";
                 description := "[Go to Message](" ++ message_link m ++ ")";
                 color := Color_blue |} in
            send_message "This server is already added!" (Some embed) w
        end
    | None =>
        (server <- MCServer_init env name' address' None ;;
         server <- make_message env server (interaction_channel interaction) ;;
         (fun w => (Ok tt, set_servers (servers w ++ [server]) w)) ;;
         write_json_file env ;;
         send_message ("__" ++ name server ++ " Server Status__") None) w
    end.

(** The loop of [removeserver_command] over [client.servers.copy()]: the
    position of the first server whose address contains [ip] and whose message
    is in the guild of the interaction.  [and] reads the guild only when the
    address matches. *)
Fixpoint find_removable (ip : string) (g : Z) (copy : list MCServer) (i : nat)
    : Result (option nat) :=
  match copy with
  | [] => Ok None
  | server :: rest =>
      if str_in ip (address server) then
        match message server with
        | None => Raise (AttributeError "channel")
        | Some m =>
            if (guild_id (channel_guild (message_channel m)) =? g)%Z
            then Ok (Some i)
            else find_removable ip g rest (S i)
        end
      else find_removable ip g rest (S i)
  end.

(** [client.servers.remove(server)] for the object at position [i]: the class
    defines no [__eq__], so [remove] takes out that very object. *)
Definition remove_at {A} (i : nat) (l : list A) : list A :=
  firstn i l ++ skipn (S i) l.

(** [removeserver_command] *)
Definition removeserver_command (env : Env) (interaction : Interaction)
    (ip : string) : M unit :=
  fun w =>
    match find_removable ip (guild_id (interaction_guild interaction)) (servers w) 0 with
    | Raise e => raise e w
    | Ok (Some i) =>
        ((fun w => (Ok tt, set_servers (remove_at i (servers w)) w)) ;;
         send_message "Removed server!" None) w
    | Ok None =>
        let response :=
          match servers w with
          | [] => "There are no servers added."
          | _ :: _ =>
              fold_left (fun response server => response ++ address server ++ nl)
                (servers w)
                ("Did not find server." ++ nl ++ nl ++ "Existing Servers:" ++ nl)
          end in
        send_message response None w
    end.

(* ================================================================== *)
(** ** The formats of the specification, and sample data *)

(** One line per player name. *)
Fixpoint player_lines (l : list JavaStatusPlayer) : string :=
  match l with
  | [] => ""
  | player :: rest => player_name player ++ nl ++ player_lines rest
  end.

(** The offline format as the specification words it. *)
Definition spec_offline (name' failureDescription : string) : string :=
  name' ++ " is offline: " ++ failureDescription.

(** The online formats as the specification words them. *)
Definition spec_online (name' : string) (playerCount : Z) (l : list JavaStatusPlayer) : string :=
  if (playerCount =? 0)%Z then name' ++ " is online with 0 online players."
  else if (playerCount =? 1)%Z
  then name' ++ " is online with 1 online player." ++ nl ++ nl ++ "Player:" ++ nl
       ++ player_lines l
  else name' ++ " is online with " ++ str_of_int playerCount ++ " online players."
       ++ nl ++ nl ++ "Players:" ++ nl ++ player_lines l.

Definition noon : Time := {| hour := 12; minute := 0; second := 5 |}.

(** A world outside in which every call succeeds; [status] answers the status
    queries and [id] is the id given to a message that is created. *)
Definition calm (status : string -> Result JavaStatusResponse) (id : Z) : Env :=
  {| client_user := "MCServerStatus#0001";
     now := fun _ => noon;
     JavaServer_lookup := fun _ => None;
     JavaServer_status := status;
     channel_send := fun _ _ => Ok id;
     message_edit := fun _ _ => None;
     get_guild := fun _ => true;
     get_channel := fun _ _ => true;
     fetch_message := fun _ _ _ => None |}.

Definition status_of (n : Z) (names : list string) : JavaStatusResponse :=
  {| players := {| online := n;
                   sample := Some (map (fun s => {| player_name := s |}) names) |} |}.

Definition guild_1 : Guild := {| guild_id := 1 |}.
Definition guild_2 : Guild := {| guild_id := 2 |}.
Definition channel_10 : TextChannel := {| channel_id := 10; channel_guild := guild_1 |}.
Definition channel_11 : TextChannel := {| channel_id := 11; channel_guild := guild_1 |}.
Definition channel_20 : TextChannel := {| channel_id := 20; channel_guild := guild_2 |}.
Definition message_100 : Message := {| message_id := 100; message_channel := channel_10 |}.
Definition message_200 : Message := {| message_id := 200; message_channel := channel_20 |}.

Definition survival : MCServer :=
  {| name := "Survival"; address := "1.2.3.4:25565"; message := Some message_100 |}.
Definition creative : MCServer :=
  {| name := "Creative"; address := "5.6.7.8:25565"; message := Some message_200 |}.

Definition lobby : MCServer :=
  {| name := "Lobby"; address := "1.2.3.4:25566";
     message := Some {| message_id := 101; message_channel := channel_11 |} |}.

Definition empty_world : World := {| servers := []; info_json := None; trace := [] |}.

(** A world with the registry [l], no file and nothing sent out yet. *)
Definition world_of (l : list MCServer) : World :=
  {| servers := l; info_json := None; trace := [] |}.

(** A world with no registry yet and the file [data]. *)
Definition world_with_file (data : list Item) : World :=
  {| servers := []; info_json := Some data; trace := [] |}.

Definition from_channel_10 : Interaction :=
  {| interaction_guild := guild_1; interaction_channel := channel_10 |}.
Definition from_channel_11 : Interaction :=
  {| interaction_guild := guild_1; interaction_channel := channel_11 |}.
Definition from_channel_20 : Interaction :=
  {| interaction_guild := guild_2; interaction_channel := channel_20 |}.

(** One player, Alice, on every server. *)
Definition alice_online : Env := calm (fun _ => Ok (status_of 1 ["Alice"])) 100.

(** The server at 1.2.3.4:25565 refuses the connection, the others are empty. *)
Definition survival_down : Env :=
  calm (fun a => if a =? "1.2.3.4:25565" then Raise "ConnectionRefused"
                 else Ok (status_of 0 [])) 100.

(** As [alice_online], but the message 200 has been deleted. *)
Definition message_200_deleted : Env :=
  {| client_user := "MCServerStatus#0001";
     now := fun _ => noon;
     JavaServer_lookup := fun _ => None;
     JavaServer_status := fun _ => Ok (status_of 1 ["Alice"]);
     channel_send := fun _ _ => Ok 100%Z;
     message_edit := fun _ _ => None;
     get_guild := fun _ => true;
     get_channel := fun _ _ => true;
     fetch_message := fun _ _ id => if (id =? 200)%Z then Some "404 Not Found" else None |}.

(* ================================================================== *)
(** ** Notions the properties are stated with *)

(** The identity of a target in the snapshot: its name and its address. *)
Definition key (s : MCServer) : string * string := (name s, address s).
Definition item_key (item : Item) : string * string := (item_name item, item_address item).

(** The test of the inner loop of [read_json_file]. *)
Definition key_match (item : Item) (server : MCServer) : bool :=
  (name server =? item_name item) && (address server =? item_address item).

Definition has_message (s : MCServer) : Prop := message s <> None.

(** The dict that [write_json_file] builds for a server with message [m]. *)
Definition dict_of (s : MCServer) (m : Message) : Item :=
  {| item_name := name s;
     item_address := address s;
     item_guild_id := guild_id (message_guild m);
     item_channel_id := channel_id (message_channel m);
     item_message_id := message_id m |}.

(** The snapshot of a registry. *)
Fixpoint snapshot_of (l : list MCServer) : list Item :=
  match l with
  | [] => []
  | s :: rest =>
      match message s with
      | Some m => dict_of s m :: snapshot_of rest
      | None => snapshot_of rest
      end
  end.

(** The server that [read_json_file] rebuilds from a record. *)
Definition server_of_item (item : Item) : MCServer :=
  {| name := item_name item;
     address := item_address item;
     message :=
       Some {| message_id := item_message_id item;
               message_channel :=
                 {| channel_id := item_channel_id item;
                    channel_guild := {| guild_id := item_guild_id item |} |} |} |}.

(** The messaging handles of a record resolve: the guild, the channel in it
    and the message in that channel are found. *)
Definition resolves (env : Env) (item : Item) : bool :=
  get_guild env (item_guild_id item)
  && get_channel env (item_guild_id item) (item_channel_id item)
  && match fetch_message env (item_guild_id item) (item_channel_id item)
             (item_message_id item) with
     | None => true
     | Some _ => false
     end.

(** The [try] block of [read_json_file] goes through for a record: its
    handles resolve and its address is one [JavaServer.lookup] takes. *)
Definition recoverable (env : Env) (item : Item) : bool :=
  resolves env item
  && match JavaServer_lookup env (item_address item) with
     | None => true
     | Some _ => false
     end.

(** What the loop of [read_json_file] makes of the registry. *)
Definition load_step (env : Env) (item : Item) (reg : list MCServer) : list MCServer :=
  if existsb (key_match item) reg then reg
  else if recoverable env item then reg ++ [server_of_item item]
  else reg.

Fixpoint loaded (env : Env) (data : list Item) (reg : list MCServer) : list MCServer :=
  match data with
  | [] => reg
  | item :: rest => loaded env rest (load_step env item reg)
  end.

(** The records the loop drops with a warning. *)
Fixpoint dropped (env : Env) (data : list Item) (reg : list MCServer) : nat :=
  match data with
  | [] => 0
  | item :: rest =>
      (if existsb (key_match item) reg || recoverable env item then 0 else 1)
      + dropped env rest (load_step env item reg)
  end.

(** The warning of [read_json_file] in the log. *)
Definition is_warning (ev : Event) : bool :=
  match ev with
  | Log _ msg => prefix "Failed to load server message: " msg
  | _ => false
  end.
Definition warnings (tr : list Event) : nat := length (filter is_warning tr).

(** The messages created. *)
Definition is_sent (ev : Event) : bool :=
  match ev with
  | Sent _ _ => true
  | _ => false
  end.
Definition created (tr : list Event) : nat := length (filter is_sent tr).

(** The world with more of the trace. *)
Definition add_events (tr : list Event) (w : World) : World :=
  {| servers := servers w; info_json := info_json w; trace := trace w ++ tr |}.

(** A restart of the process: the registry is empty again, the file and what
    was sent out stay. *)
Definition restart (w : World) : World := set_servers [] w.

(** What every registry the program builds satisfies: each server has its
    message, its address is one [JavaServer.lookup] takes, and no two servers
    have both the name and the address in common. *)
Record tracked (lookup : string -> option exn) (reg : list MCServer) : Prop := {
  tracked_message : Forall has_message reg;
  tracked_address : Forall (fun s => lookup (address s) = None) reg;
  tracked_distinct : NoDup (map key reg)
}.

(** The handles of the message of a server resolve. *)
Definition resolvable (env : Env) (s : MCServer) : Prop :=
  exists m, message s = Some m /\ resolves env (dict_of s m) = true.

(** The file, when there is one, holds records with pairwise distinct
    (name, address) and addresses the lookup takes. *)
Definition snapshot_ok (lookup : string -> option exn) (file : option (list Item)) : Prop :=
  match file with
  | None => True
  | Some data =>
      NoDup (map item_key data)
      /\ forall item, In item data -> lookup (item_address item) = None
  end.

(** [JavaServer.lookup] reads the address only: during every call it answers
    as [lookup] does. *)
Definition agrees (env : Env) (lookup : string -> option exn) : Prop :=
  forall a, JavaServer_lookup env a = lookup a.

(** The worlds the program gets to when its handlers run one after another:
    from the first start, by the handlers of [main] in any order, each in a
    world outside of its own and each run to its end before the next one
    starts, and by restarts of the process between two handlers.  (A command
    that arrives while another one waits at an [await] is not a step of
    [reachable]; see [addserver_before_send].) *)
Inductive reachable (lookup : string -> option exn) : World -> Prop :=
| reach_start : reachable lookup empty_world
| reach_on_ready env w :
    reachable lookup w -> agrees env lookup -> reachable lookup (snd (on_ready env w))
| reach_poll_servers env w :
    reachable lookup w -> reachable lookup (snd (poll_servers env w))
| reach_addserver_command env interaction ip name' port w :
    reachable lookup w -> agrees env lookup ->
    reachable lookup (snd (addserver_command env interaction ip name' port w))
| reach_removeserver_command env interaction ip w :
    reachable lookup w ->
    reachable lookup (snd (removeserver_command env interaction ip w))
| reach_restart w :
    reachable lookup w -> reachable lookup (restart w).

(** One call of [addserver_command], with the world outside at that time. *)
Record AddCall := {
  call_env : Env;
  call_interaction : Interaction;
  call_ip : string;
  call_name : string;
  call_port : Z
}.

(** A sequence of calls of [addserver_command]; a call that raises ends, and
    the next one runs. *)
Fixpoint run_adds (calls : list AddCall) (w : World) : World :=
  match calls with
  | [] => w
  | c :: rest =>
      run_adds rest
        (snd (addserver_command (call_env c) (call_interaction c) (call_ip c)
                (call_name c) (call_port c) w))
  end.

(** The scope of the specification: a guild id and a channel id. *)
Definition interaction_scope (i : Interaction) : Z * Z :=
  (guild_id (interaction_guild i), channel_id (interaction_channel i)).
Definition target_scope (s : MCServer) : option (Z * Z) :=
  option_map (fun m => (guild_id (message_guild m), channel_id (message_channel m)))
    (message s).

(** The message of the server is in guild [g]. *)
Definition in_guild (g : Z) (s : MCServer) : bool :=
  match message s with
  | Some m => (guild_id (message_guild m) =? g)%Z
  | None => false
  end.

(** The address lines of the answer of [removeserver_command]. *)
Fixpoint address_lines (l : list MCServer) : string :=
  match l with
  | [] => ""
  | server :: rest => address server ++ nl ++ address_lines rest
  end.

(** The answer of a remove that finds nothing, as the specification words it:
    the addresses of the targets of the scope. *)
Definition spec_not_found (scope : Z * Z) (reg : list MCServer) : string :=
  "Did not find server." ++ nl ++ nl ++ "Existing Servers:" ++ nl
  ++ address_lines
       (filter (fun s => match target_scope s with
                         | Some (g, c) => ((g =? fst scope) && (c =? snd scope))%Z
                         | None => false
                         end) reg).

(** Survival, Creative, and Survival once more under another name. *)
Definition three_adds : list AddCall :=
  [ {| call_env := alice_online; call_interaction := from_channel_10;
       call_ip := "1.2.3.4"; call_name := "Survival"; call_port := 25565 |};
    {| call_env := alice_online; call_interaction := from_channel_20;
       call_ip := "5.6.7.8"; call_name := "Creative"; call_port := 25565 |};
    {| call_env := survival_down; call_interaction := from_channel_20;
       call_ip := "1.2.3.4"; call_name := "Hardcore"; call_port := 25565 |} ].

(** A field of the clock as [get_log_time] writes it: a [0] in front of a
    value below ten. *)
Definition two_digits (n : nat) : string :=
  (if (n <? 10)%nat then "0" else "") ++ str_of_nat n.

(** The messages edited, in the order of the edits. *)
Fixpoint edited (tr : list Event) : list Message :=
  match tr with
  | [] => []
  | Edited m _ :: rest => m :: edited rest
  | _ :: rest => edited rest
  end.

(** The test of the loop of [removeserver_command]. *)
Definition removable (ip : string) (g : Z) (server : MCServer) : bool :=
  str_in ip (address server) && in_guild g server.

(** The file, when there is one, holds no address twice. *)
Definition file_addresses_distinct (file : option (list Item)) : Prop :=
  match file with
  | None => True
  | Some data => NoDup (map item_address data)
  end.

(** As [alice_online], but the message 100 has been deleted: every edit of it
    raises. *)
Definition message_100_deleted : Env :=
  {| client_user := "MCServerStatus#0001";
     now := fun _ => noon;
     JavaServer_lookup := fun _ => None;
     JavaServer_status := fun _ => Ok (status_of 1 ["Alice"]);
     channel_send := fun _ _ => Ok 100%Z;
     message_edit := fun m _ => if (message_id m =? 100)%Z then Some "404 Not Found" else None;
     get_guild := fun _ => true;
     get_channel := fun _ _ => true;
     fetch_message := fun _ _ _ => None |}.

(** Three players on every server, and no list of their names. *)
Definition sample_hidden : Env :=
  calm (fun _ => Ok {| players := {| online := 3; sample := None |} |}) 100.

(** The messaging service refuses the text of the online rendering, and
    takes every other text. *)
Definition online_text_refused : Env :=
  {| client_user := "MCServerStatus#0001";
     now := fun _ => noon;
     JavaServer_lookup := fun _ => None;
     JavaServer_status := fun _ => Ok (status_of 0 []);
     channel_send := fun _ _ => Ok 100%Z;
     message_edit := fun _ content =>
       if prefix "Survival is **online**" content then Some "503 Service Unavailable"
       else None;
     get_guild := fun _ => true;
     get_channel := fun _ _ => true;
     fetch_message := fun _ _ _ => None |}.

(** Creating a message fails. *)
Definition send_forbidden : Env :=
  {| client_user := "MCServerStatus#0001";
     now := fun _ => noon;
     JavaServer_lookup := fun _ => None;
     JavaServer_status := fun _ => Ok (status_of 0 []);
     channel_send := fun _ _ => Raise "403 Forbidden";
     message_edit := fun _ _ => None;
     get_guild := fun _ => true;
     get_channel := fun _ _ => true;
     fetch_message := fun _ _ _ => None |}.

(** The lines on the standard output, as [print] writes them. *)
Fixpoint stdout (tr : list Event) : list string :=
  match tr with
  | [] => []
  | Log time msg :: rest => printed_line time msg :: stdout rest
  | _ :: rest => stdout rest
  end.

(** As [survival_down], and the message 100, the one of Survival, has been
    deleted: every edit of it raises. *)
Definition survival_down_message_gone : Env :=
  {| client_user := "MCServerStatus#0001";
     now := fun _ => noon;
     JavaServer_lookup := fun _ => None;
     JavaServer_status :=
       fun a => if a =? "1.2.3.4:25565" then Raise "ConnectionRefused"
                else Ok (status_of 0 []);
     channel_send := fun _ _ => Ok 100%Z;
     message_edit := fun m _ => if (message_id m =? 100)%Z then Some "404 Not Found" else None;
     get_guild := fun _ => true;
     get_channel := fun _ _ => true;
     fetch_message := fun _ _ _ => None |}.

(** A history of the process: Survival, Creative and Lobby are added, a tick
    runs while Survival is down, and Creative is removed. *)
Definition after_three_adds : World :=
  snd (addserver_command (calm (fun _ => Ok (status_of 0 [])) 101) from_channel_11
         "1.2.3.4" "Lobby" 25566
         (snd (addserver_command (calm (fun _ => Ok (status_of 0 [])) 200) from_channel_20
                 "5.6.7.8" "Creative" 25565
                 (snd (addserver_command alice_online from_channel_10
                         "1.2.3.4" "Survival" 25565 empty_world))))).
Definition after_some_history : World :=
  snd (removeserver_command alice_online from_channel_20 "5.6.7.8"
         (snd (poll_servers survival_down after_three_adds))).

(** [addserver_command] up to its first suspension, the [await] of
    [channel.send] in [make_message]: the duplicate check, the constructor
    and [get_content].  It gives the new server and the text to send, or
    [None] when the command has ended (a duplicate was answered). *)
Definition addserver_before_send (env : Env) (interaction : Interaction)
    (ip name' : string) (port : Z) : M (option (MCServer * string)) :=
  fun w =>
    let address' := ip ++ ":" ++ str_of_int port in
    match find (fun server => address server =? address') (servers w) with
    | Some server =>
        match message server with
        | None => raise (AttributeError "id") w
        | Some m =>
            let embed :=
              {| title := "Status";
                 description := "[Go to Message](" ++ message_link m ++ ")";
                 color := Color_blue |} in
            (send_message "This server is already added!" (Some embed) ;; ret None) w
        end
    | None =>
        (server <- MCServer_init env name' address' None ;;
         match get_content env server with
         | Raise e => handle_exception env server e ;; ret None
         | Ok content => ret (Some (server, content))
         end) w
    end.

(** [addserver_command] from the answer of [channel.send] on: the rest of
    [make_message], the append, the save and the response. *)
Definition addserver_after_send (env : Env) (interaction : Interaction)
    (pending : MCServer * string) : M unit :=
  let (self, content) := pending in
  server <- try_except
              (m <- send env (interaction_channel interaction) content ;;
               ret {| name := name self; address := address self; message := Some m |})
              (fun e => handle_exception env self e ;; ret self) ;;
  (fun w => (Ok tt, set_servers (servers w ++ [server]) w)) ;;
  write_json_file env ;;
  send_message ("__" ++ name server ++ " Server Status__") None.

(* ================================================================== *)
(** ** Strings *)

Lemma append_assoc (a b c : string) : (a ++ b) ++ c = a ++ (b ++ c).
Proof. induction a as [| x a IH]; simpl; [reflexivity | now rewrite IH]. Qed.

Lemma append_empty_r (a : string) : a ++ "" = a.
Proof. induction a as [| x a IH]; simpl; [reflexivity | now rewrite IH]. Qed.

Lemma prefix_empty (s : string) : prefix "" s = true.
Proof. destruct s; reflexivity. Qed.

Lemma prefix_append (a b : string) : prefix a (a ++ b) = true.
Proof.
  induction a as [| x a IH]; simpl; [apply prefix_empty |].
  destruct (ascii_dec x x); [exact IH | congruence].
Qed.

(** The empty string occurs in every string. *)
Lemma str_in_empty (s : string) : str_in "" s = true.
Proof. destruct s; reflexivity. Qed.

Lemma fold_player_lines (l : list JavaStatusPlayer) (content : string) :
  fold_left (fun content player => content ++ player_name player ++ nl) l content
  = content ++ player_lines l.
Proof.
  revert content; induction l as [| p l IH]; intros content; simpl.
  - now rewrite append_empty_r.
  - rewrite IH. now rewrite !append_assoc.
Qed.

(** The stamp of a line of the log: two digits each, as [get_log_time] pads. *)
Example printed_line_noon :
  printed_line noon "Reading info.json" = "12:00:05> Reading info.json".
Proof. reflexivity. Qed.

Lemma length_trace_add_event (ev : Event) (w : World) :
  length (trace (add_event ev w)) = S (length (trace w)).
Proof. simpl. rewrite length_app. simpl. lia. Qed.

(* ================================================================== *)
(** ** The status renderer *)

(** C1, as amended.  The rendered text carries the Markdown bold marks of the
    source around the words online and offline.  After a failure [e] the
    message is edited to [<name> is **offline**: <e>]; a status with 0 players
    renders as [<name> is **online** with 0 online players.] with no player
    section; with 1 player and a sample, as the singular header [Player:] and
    the sampled names; with n >= 2 players and a sample, as the plural header
    [Players:] and the sampled names, all of them, in the order of the
    sample. *)
Theorem rendered_status_text :
  (forall env self m e w,
      message self = Some m ->
      message_edit env m (name self ++ " is **offline**: " ++ e) = None ->
      handle_exception env self e w
      = (Ok tt,
         add_events
           [Edited m (name self ++ " is **offline**: " ++ e);
            Log (now env (S (length (trace w))))
              ("Error looking up server " ++ name self ++ " (" ++ address self
               ++ ") status: " ++ e)]
           w)) /\
  (forall env self status,
      JavaServer_status env (address self) = Ok status ->
      online (players status) = 0%Z ->
      get_content env self = Ok (name self ++ " is **online** with 0 online players.")) /\
  (forall env self status l,
      JavaServer_status env (address self) = Ok status ->
      online (players status) = 1%Z ->
      sample (players status) = Some l ->
      get_content env self
      = Ok (name self ++ " is **online** with 1 online player." ++ nl ++ nl
            ++ "Player:" ++ nl ++ player_lines l)) /\
  (forall env self status l,
      JavaServer_status env (address self) = Ok status ->
      (2 <= online (players status))%Z ->
      sample (players status) = Some l ->
      get_content env self
      = Ok (name self ++ " is **online** with " ++ str_of_int (online (players status))
            ++ " online players." ++ nl ++ nl ++ "Players:" ++ nl ++ player_lines l)).
Proof.
  repeat split.
  - intros env self m e w Hm Hedit.
    unfold handle_exception. rewrite Hm.
    unfold bind, edit. rewrite Hedit. unfold emit, print, emit.
    rewrite length_trace_add_event. unfold add_event, add_events.
    cbn [servers info_json trace]. now rewrite <- app_assoc.
  - intros env self status Hst H0.
    unfold get_content. rewrite Hst, H0. simpl.
    now rewrite !append_assoc.
  - intros env self status l Hst H1 Hl.
    unfold get_content. rewrite Hst, H1, Hl. simpl.
    rewrite fold_player_lines. now rewrite !append_assoc.
  - intros env self status l Hst H2 Hl.
    unfold get_content. rewrite Hst, Hl.
    destruct (online (players status) =? 0)%Z eqn:E0; [lia |].
    destruct (online (players status) =? 1)%Z eqn:E1; [lia |].
    rewrite fold_player_lines. now rewrite !append_assoc.
Qed.

(* ================================================================== *)
(** ** Running computations *)

Lemma bind_ok {A B} (m : M A) (k : A -> M B) (w w' : World) (a : A) :
  m w = (Ok a, w') -> bind m k w = k a w'.
Proof. intros H. unfold bind. now rewrite H. Qed.

(** A loop over [pre ++ l] is the loop over [pre], then, unless that raised,
    the loop over [l]. *)
Lemma for_each_app {A} (body : A -> M unit) (pre l : list A) (w : World) :
  for_each (pre ++ l) body w
  = match for_each pre body w with
    | (Ok _, w1) => for_each l body w1
    | (Raise e, w1) => (Raise e, w1)
    end.
Proof.
  revert w; induction pre as [| x pre IH]; intros w; simpl.
  - reflexivity.
  - unfold bind. destruct (body x w) as [[[] | e] w1]; [apply IH | reflexivity].
Qed.

(* ================================================================== *)
(** ** The poller *)

(** A failed status query makes [get_content] raise. *)
Lemma get_content_query_failed (env : Env) (self : MCServer) (e : exn) :
  JavaServer_status env (address self) = Raise e -> get_content env self = Raise e.
Proof. intros H. unfold get_content. now rewrite H. Qed.

(** What [get_status] does when [get_content] raises and the edit of the
    handler goes through. *)
Lemma get_status_offline (env : Env) (self : MCServer) (m : Message) (e : exn) (w : World) :
  message self = Some m ->
  get_content env self = Raise e ->
  message_edit env m (name self ++ " is **offline**: " ++ e) = None ->
  get_status env self w
  = (Ok tt,
     add_event
       (Log (now env (S (length (trace w))))
          ("Error looking up server " ++ name self ++ " (" ++ address self
           ++ ") status: " ++ e))
       (add_event (Edited m (name self ++ " is **offline**: " ++ e)) w)).
Proof.
  intros Hm Hc Hedit.
  unfold get_status, try_except, bind, lift. rewrite Hc.
  unfold handle_exception. rewrite Hm.
  unfold bind, edit. rewrite Hedit. unfold print, emit.
  now rewrite length_trace_add_event.
Qed.

(** The handler is not guarded: when its own edit raises, [get_status]
    raises, with nothing done. *)
Lemma get_status_edit_refused (env : Env) (self : MCServer) (m : Message) (e e' : exn)
    (w : World) :
  message self = Some m ->
  get_content env self = Raise e ->
  message_edit env m (name self ++ " is **offline**: " ++ e) = Some e' ->
  get_status env self w = (Raise e', w).
Proof.
  intros Hm Hc Hedit.
  unfold get_status, try_except, bind, lift. rewrite Hc.
  unfold handle_exception. rewrite Hm.
  unfold bind, edit. now rewrite Hedit.
Qed.

(** What [get_status] does when the query and the edit go through. *)
Lemma get_status_online (env : Env) (self : MCServer) (m : Message) (content : string)
    (w : World) :
  message self = Some m ->
  get_content env self = Ok content ->
  message_edit env m content = None ->
  get_status env self w = (Ok tt, add_event (Edited m content) w).
Proof.
  intros Hm Hc Hedit.
  unfold get_status, try_except, bind, lift. rewrite Hc, Hm.
  unfold edit. now rewrite Hedit.
Qed.

(** X22.  In a tick over [pre ++ self :: rest], when the status query of
    [self] fails with [e] and the messaging service takes the edit of the
    offline text, [get_status] returns without raising: the message of
    [self] is edited to the offline rendering and the failure is logged; the
    tick then goes on with the targets of [rest]. *)
Theorem status_failure_is_local (env : Env) (w w1 : World) (pre rest : list MCServer)
    (self : MCServer) (m : Message) (e : exn) :
  servers w = (pre ++ self :: rest)%list ->
  for_each pre (get_status env) w = (Ok tt, w1) ->
  message self = Some m ->
  JavaServer_status env (address self) = Raise e ->
  message_edit env m (name self ++ " is **offline**: " ++ e) = None ->
  let w2 :=
    add_event
      (Log (now env (S (length (trace w1))))
         ("Error looking up server " ++ name self ++ " (" ++ address self
          ++ ") status: " ++ e))
      (add_event (Edited m (name self ++ " is **offline**: " ++ e)) w1) in
  get_status env self w1 = (Ok tt, w2) /\
  poll_servers env w = for_each rest (get_status env) w2.
Proof.
  intros Hs Hpre Hm Hq Hedit w2.
  assert (Hg : get_status env self w1 = (Ok tt, w2))
    by (apply get_status_offline; auto using get_content_query_failed).
  split; [exact Hg |].
  unfold poll_servers. rewrite Hs, for_each_app, Hpre. simpl.
  now rewrite (bind_ok _ _ _ _ _ Hg).
Qed.

(** A tick over servers that all have their message, with a messaging
    library that takes every edit, returns without raising whatever the
    status queries give, and leaves the registry and the file as they are. *)
Lemma for_each_get_status_completes (env : Env) (l : list MCServer) (w : World) :
  Forall has_message l ->
  (forall m content, message_edit env m content = None) ->
  exists tr,
    for_each l (get_status env) w = (Ok tt, add_events tr w) /\
    length (filter (fun ev => match ev with Edited _ _ => true | _ => false end) tr)
    = length l.
Proof.
  intros Hl Hedit. revert w.
  induction Hl as [| s l Hs Hl IH]; intros w; simpl.
  - exists []. unfold ret, add_events. rewrite app_nil_r. now destruct w.
  - destruct (message s) as [m |] eqn:Hm; [| now elim Hs].
    destruct (get_content env s) as [content | e] eqn:Hc.
    + rewrite (bind_ok _ _ _ _ _ (get_status_online env s m content w Hm Hc (Hedit _ _))).
      destruct (IH (add_event (Edited m content) w)) as [tr [Htr Hn]].
      exists (Edited m content :: tr). split.
      * rewrite Htr. unfold add_events, add_event. simpl. now rewrite <- app_assoc.
      * simpl. now rewrite Hn.
    + rewrite (bind_ok _ _ _ _ _ (get_status_offline env s m e w Hm Hc (Hedit _ _))).
      match goal with |- context [for_each l _ ?w'] => destruct (IH w') as [tr [Htr Hn]] end.
      eexists (Edited m _ :: Log _ _ :: tr). split.
      * rewrite Htr. unfold add_events, add_event. simpl.
        rewrite <- !app_assoc. reflexivity.
      * simpl. now rewrite Hn.
Qed.

(* ================================================================== *)
(** ** Traces *)

Lemma add_events_nil (w : World) : add_events [] w = w.
Proof. destruct w. unfold add_events. simpl. now rewrite app_nil_r. Qed.

Lemma add_events_app (tr1 tr2 : list Event) (w : World) :
  add_events tr2 (add_events tr1 w) = add_events (tr1 ++ tr2) w.
Proof. unfold add_events. simpl. now rewrite app_assoc. Qed.

Lemma warnings_app (tr1 tr2 : list Event) :
  warnings (tr1 ++ tr2) = warnings tr1 + warnings tr2.
Proof. unfold warnings. now rewrite filter_app, length_app. Qed.

Lemma created_app (tr1 tr2 : list Event) :
  created (tr1 ++ tr2) = created tr1 + created tr2.
Proof. unfold created. now rewrite filter_app, length_app. Qed.

Lemma print_spec (env : Env) (msg : string) (w : World) :
  print env msg w = (Ok tt, add_events [Log (now env (length (trace w))) msg] w).
Proof. reflexivity. Qed.

(* ================================================================== *)
(** ** The snapshot: [write_json_file] *)

Lemma server_dicts_of_spec (l : list MCServer) (acc : list Item) :
  Forall has_message l -> server_dicts_of l acc = Ok (acc ++ snapshot_of l)%list.
Proof.
  intros Hl. revert acc. induction Hl as [| s l Hs Hl IH]; intros acc; simpl.
  - now rewrite app_nil_r.
  - destruct (message s) as [m |] eqn:Hm; [| now elim Hs].
    rewrite IH, <- app_assoc. reflexivity.
Qed.

(** On a registry whose servers all have their message, [write_json_file]
    replaces the file by the snapshot of the registry. *)
Lemma write_json_file_spec (env : Env) (w : World) :
  Forall has_message (servers w) ->
  write_json_file env w
  = (Ok tt,
     add_events [Log (now env (length (trace w))) ("Successfully wrote " ++ FILE_PATH)]
       (set_info_json (snapshot_of (servers w)) w)).
Proof.
  intros Hl. unfold write_json_file. now rewrite (server_dicts_of_spec _ [] Hl).
Qed.

Lemma server_of_dict (s : MCServer) (m : Message) :
  message s = Some m -> server_of_item (dict_of s m) = s.
Proof.
  destruct s as [n a ms]. simpl. intros ->.
  destruct m as [i [c [g]]]. reflexivity.
Qed.

Lemma snapshot_keys (l : list MCServer) :
  Forall has_message l -> map item_key (snapshot_of l) = map key l.
Proof.
  induction 1 as [| s l Hs Hl IH]; simpl; [reflexivity |].
  destruct (message s) as [m |] eqn:Hm; [| now elim Hs].
  simpl. now rewrite IH.
Qed.

Lemma snapshot_servers (l : list MCServer) :
  Forall has_message l -> map server_of_item (snapshot_of l) = l.
Proof.
  induction 1 as [| s l Hs Hl IH]; simpl; [reflexivity |].
  destruct (message s) as [m |] eqn:Hm; [| now elim Hs].
  simpl. now rewrite IH, (server_of_dict s m Hm).
Qed.

(* ================================================================== *)
(** ** Recovery: [read_json_file] *)

Lemma recognize_spec (env : Env) (item : Item) (l : list MCServer) (found : bool) (w : World) :
  exists tr,
    recognize env item l found w = (Ok (found || existsb (key_match item) l), add_events tr w)
    /\ warnings tr = 0 /\ created tr = 0.
Proof.
  revert found w. induction l as [| s l IH]; intros found w; simpl.
  - exists []. rewrite add_events_nil, orb_false_r. now unfold ret.
  - fold (key_match item s). destruct (key_match item s) eqn:Hk.
    + rewrite (bind_ok _ _ _ _ _ (print_spec env _ w)). cbv beta.
      match goal with |- context [recognize env item l true ?w'] =>
        destruct (IH true w') as [tr [Hr [Hw Hc]]] end.
      eexists (_ :: tr). rewrite Hr, add_events_app. simpl.
      rewrite orb_true_r. split; [reflexivity |].
      split; [exact Hw | exact Hc].
    + destruct (IH found w) as [tr [Hr [Hw Hc]]].
      exists tr. now rewrite Hr.
Qed.

Lemma recover_ok (env : Env) (item : Item) (w : World) :
  recoverable env item = true ->
  recover env item w
  = (Ok tt,
     add_events
       [Log (now env (length (trace w)))
          ("Recovered server " ++ item_name item ++ " with message id "
           ++ str_of_int (item_message_id item))]
       (set_servers (servers w ++ [server_of_item item]) w)).
Proof.
  unfold recoverable, resolves, recover. intros H.
  apply andb_prop in H as [H Hl]. apply andb_prop in H as [H Hf].
  apply andb_prop in H as [Hg Hc].
  unfold bind. rewrite Hg, Hc. unfold ret.
  destruct (fetch_message env _ _ _); [discriminate |].
  unfold MCServer_init.
  destruct (JavaServer_lookup env _); [discriminate |].
  reflexivity.
Qed.

Lemma recover_raises (env : Env) (item : Item) (w : World) :
  recoverable env item = false -> exists e, recover env item w = (Raise e, w).
Proof.
  unfold recoverable, resolves, recover, bind, ret, raise. intros H.
  destruct (get_guild env _); [| eauto].
  destruct (get_channel env _ _); [| eauto].
  destruct (fetch_message env _ _ _); [eauto |].
  unfold MCServer_init, raise.
  destruct (JavaServer_lookup env _); [eauto | discriminate].
Qed.

(** One record: the registry moves by [load_step], and a warning is logged
    exactly when the record is neither known nor recoverable. *)
Lemma load_item_spec (env : Env) (item : Item) (w : World) :
  exists tr,
    load_item env item w
    = (Ok tt, add_events tr (set_servers (load_step env item (servers w)) w))
    /\ warnings tr
       = (if existsb (key_match item) (servers w) || recoverable env item then 0 else 1)
    /\ created tr = 0.
Proof.
  unfold load_item, load_step.
  destruct (recognize_spec env item (servers w) false w) as [tr [Hr [Hw Hc]]].
  unfold bind. rewrite Hr. cbn [orb].
  destruct (existsb (key_match item) (servers w)); cbn [negb orb].
  - exists tr. unfold ret. split; [| now split].
    destruct w; reflexivity.
  - unfold try_except. destruct (recoverable env item) eqn:Hrec.
    + rewrite recover_ok by exact Hrec.
      eexists (tr ++ [_])%list. split.
      * f_equal. unfold add_events, set_servers. cbn [servers info_json trace].
        now rewrite <- app_assoc.
      * rewrite warnings_app, created_app, Hw, Hc. now split.
    + destruct (recover_raises env item (add_events tr w) Hrec) as [e He].
      rewrite He, print_spec, add_events_app.
      eexists (tr ++ [_])%list. split; [destruct w; reflexivity |].
      rewrite warnings_app, created_app, Hw, Hc.
      unfold warnings, created. cbn [filter is_warning is_sent].
      rewrite prefix_append. now split.
Qed.

(** The loop over the records. *)
Lemma load_items_spec (env : Env) (data : list Item) (w : World) :
  exists tr,
    for_each data (load_item env) w
    = (Ok tt, add_events tr (set_servers (loaded env data (servers w)) w))
    /\ warnings tr = dropped env data (servers w)
    /\ created tr = 0.
Proof.
  revert w. induction data as [| item data IH]; intros w; simpl.
  - exists []. rewrite add_events_nil. unfold ret. split; [| now split].
    destruct w; reflexivity.
  - destruct (load_item_spec env item w) as [tr1 [H1 [Hw1 Hc1]]].
    rewrite (bind_ok _ _ _ _ _ H1). cbv beta.
    destruct (IH (add_events tr1 (set_servers (load_step env item (servers w)) w)))
      as [tr2 [H2 [Hw2 Hc2]]].
    exists (tr1 ++ tr2)%list. rewrite H2. simpl.
    split; [unfold add_events, set_servers; simpl; now rewrite app_assoc |].
    rewrite warnings_app, created_app, Hw1, Hw2, Hc1, Hc2. now split.
Qed.

(** [read_json_file] on a file that exists: it never raises, the registry
    becomes [loaded], the file stays, one warning is logged per dropped
    record and no message is created. *)
Lemma read_json_file_spec (env : Env) (data : list Item) (w : World) :
  info_json w = Some data ->
  exists tr,
    read_json_file env w
    = (Ok tt, add_events tr (set_servers (loaded env data (servers w)) w))
    /\ warnings tr = dropped env data (servers w)
    /\ created tr = 0.
Proof.
  intros Hd. unfold read_json_file. rewrite Hd.
  unfold bind. rewrite print_spec.
  match goal with |- context [for_each data _ ?w0] =>
    destruct (load_items_spec env data w0) as [tr [H [Hw Hc]]] end.
  rewrite H. cbv beta iota. rewrite print_spec.
  eexists (_ :: tr ++ [_])%list. split.
  - f_equal. unfold add_events, set_servers. cbn [servers info_json trace].
    now rewrite <- !app_assoc.
  - change (?x :: tr ++ ?y)%list with ([x] ++ tr ++ y)%list.
    rewrite !warnings_app, !created_app, Hw, Hc.
    unfold warnings, created. split; simpl; lia.
Qed.

(* ================================================================== *)
(** ** The registry after the loop of [read_json_file] *)

Lemma key_match_server_of_item (item item' : Item) :
  key_match item' (server_of_item item) = true <-> item_key item = item_key item'.
Proof.
  unfold key_match, item_key. simpl. rewrite andb_true_iff, !String.eqb_eq.
  split; [intros [-> ->]; reflexivity | intros H; injection H; auto].
Qed.

Lemma key_match_same_key (item item' : Item) (s : MCServer) :
  item_key item = item_key item' -> key_match item s = key_match item' s.
Proof. unfold key_match, item_key. intros H. injection H as -> ->. reflexivity. Qed.

Lemma existsb_key_match_same_key (item item' : Item) (reg : list MCServer) :
  item_key item = item_key item' ->
  existsb (key_match item) reg = existsb (key_match item') reg.
Proof.
  intros H. induction reg as [| s reg IH]; simpl; [reflexivity |].
  now rewrite IH, (key_match_same_key item item' s H).
Qed.

Lemma existsb_key_match_false (item : Item) (reg : list MCServer) :
  (forall s, In s reg -> address s = item_address item -> name s <> item_name item) ->
  existsb (key_match item) reg = false.
Proof.
  intros H. induction reg as [| s reg IH]; simpl; [reflexivity |].
  rewrite IH by (intros; apply H; simpl; auto). rewrite orb_false_r.
  unfold key_match. destruct (String.eqb_spec (address s) (item_address item)) as [Ha | Ha].
  - rewrite andb_true_r. apply String.eqb_neq. apply H; simpl; auto.
  - apply andb_false_r.
Qed.

(** From a registry that knows none of the records, and records with
    pairwise distinct keys, the loop appends the recoverable records in
    order and drops the others. *)
Lemma loaded_fresh (env : Env) (data : list Item) (reg : list MCServer) :
  NoDup (map item_key data) ->
  (forall item, In item data -> existsb (key_match item) reg = false) ->
  loaded env data reg = (reg ++ map server_of_item (filter (recoverable env) data))%list
  /\ dropped env data reg = length data - length (filter (recoverable env) data).
Proof.
  revert reg. induction data as [| item data IH]; intros reg Hnd Hreg; simpl.
  - now rewrite app_nil_r.
  - inversion Hnd as [| k ks Hk Hnd']; subst.
    unfold load_step. rewrite (Hreg item) by (simpl; auto). simpl.
    destruct (recoverable env item) eqn:Hrec.
    + destruct (IH (reg ++ [server_of_item item])%list Hnd') as [Hl Hd].
      * intros item' Hin. rewrite existsb_app, (Hreg item') by (simpl; auto). simpl.
        rewrite orb_false_r. apply not_true_is_false. intros Hm.
        apply key_match_server_of_item in Hm. apply Hk. rewrite Hm.
        now apply in_map.
      * rewrite Hl, Hd, <- app_assoc. simpl. split; reflexivity.
    + destruct (IH reg Hnd') as [Hl Hd]; [intros; apply Hreg; simpl; auto |].
      rewrite Hl, Hd. split; [reflexivity |].
      pose proof (filter_length_le (recoverable env) data).
      destruct (length (filter (recoverable env) data)); lia.
Qed.

(** The loop only appends, and never a server with the key of a server that
    is already there: the entries with a known key stay what they are. *)
Lemma loaded_keeps (env : Env) (data : list Item) (reg : list MCServer) (item : Item) :
  existsb (key_match item) reg = true ->
  filter (key_match item) (loaded env data reg) = filter (key_match item) reg.
Proof.
  revert reg. induction data as [| item' data IH]; intros reg Hin; simpl; [reflexivity |].
  unfold load_step.
  destruct (existsb (key_match item') reg) eqn:Hk; [now apply IH |].
  destruct (recoverable env item'); [| now apply IH].
  rewrite IH by (rewrite existsb_app, Hin; reflexivity).
  rewrite filter_app. simpl.
  destruct (key_match item (server_of_item item')) eqn:Hm; [| apply app_nil_r].
  apply key_match_server_of_item in Hm.
  rewrite (existsb_key_match_same_key item' item reg Hm) in Hk. congruence.
Qed.

Lemma recoverable_resolves (env : Env) (data : list Item) :
  (forall item, In item data -> JavaServer_lookup env (item_address item) = None) ->
  filter (recoverable env) data = filter (resolves env) data.
Proof.
  intros H. apply filter_ext_in. intros item Hin.
  unfold recoverable. rewrite (H item Hin). apply andb_true_r.
Qed.

(** C8.  Recovery into an empty registry from a snapshot of N records with
    pairwise distinct (name, address), as every snapshot the program writes
    has, and with addresses [JavaServer.lookup] takes: [read_json_file] does
    not raise; the registry becomes the records whose handles resolve, in
    order, so M entries when M records resolve; N - M warnings are logged, one
    per record that is dropped; and no message is created. *)
Theorem recovery_partial_failure (env : Env) (data : list Item) (w : World) :
  servers w = [] ->
  info_json w = Some data ->
  NoDup (map item_key data) ->
  (forall item, In item data -> JavaServer_lookup env (item_address item) = None) ->
  let w' := snd (read_json_file env w) in
  let M := length (filter (resolves env) data) in
  fst (read_json_file env w) = Ok tt /\
  servers w' = map server_of_item (filter (resolves env) data) /\
  length (servers w') = M /\
  warnings (trace w') = warnings (trace w) + (length data - M) /\
  created (trace w') = created (trace w).
Proof.
  intros Hs Hd Hnd Hlk w' M. subst w' M.
  destruct (read_json_file_spec env data w Hd) as [tr [Hr [Hw Hc]]].
  rewrite Hr, Hs in *. cbn [fst snd add_events set_servers servers trace].
  destruct (loaded_fresh env data [] Hnd (fun _ _ => eq_refl)) as [Hl Hdr].
  rewrite Hl, Hdr, (recoverable_resolves env data Hlk) in *. cbn [app].
  rewrite warnings_app, created_app, Hw, Hc, length_map.
  repeat split; lia.
Qed.

(** C7.  For a registry the program can hold ([tracked]) whose message
    handles all resolve, saving and then loading into the empty registry of a
    restarted process gives the same servers in the same order; in
    particular the same (name, address) pairs. *)
Theorem persistence_round_trip (env_save env : Env) (w : World) :
  tracked (JavaServer_lookup env) (servers w) ->
  Forall (resolvable env) (servers w) ->
  let saved := snd (write_json_file env_save w) in
  let w' := snd (read_json_file env (restart saved)) in
  fst (write_json_file env_save w) = Ok tt /\
  info_json saved = Some (snapshot_of (servers w)) /\
  fst (read_json_file env (restart saved)) = Ok tt /\
  servers w' = servers w /\
  map key (servers w') = map key (servers w).
Proof.
  intros [Hm Ha Hnd] Hres saved w'. subst saved w'.
  rewrite (write_json_file_spec env_save w Hm). cbn [fst snd].
  match goal with |- context [read_json_file env ?w0] =>
    destruct (read_json_file_spec env (snapshot_of (servers w)) w0 eq_refl)
      as [tr [Hr _]] end.
  rewrite Hr. cbn [fst snd add_events set_servers set_info_json restart servers info_json].
  destruct (loaded_fresh env (snapshot_of (servers w)) [])
    as [Hl _]; [now rewrite snapshot_keys | reflexivity |].
  assert (Hall : filter (recoverable env) (snapshot_of (servers w))
                 = snapshot_of (servers w)).
  { clear Hl Hr Hnd. induction (servers w) as [| s l IH]; simpl; [reflexivity |].
    inversion Hm; inversion Ha; inversion Hres as [| ? ? [m [Hsm Hrs]]]; subst.
    rewrite Hsm. simpl. unfold recoverable at 1. simpl.
    rewrite Hrs. simpl.
    match goal with H : JavaServer_lookup env (address s) = None |- _ => rewrite H end.
    now rewrite IH. }
  rewrite Hl, Hall, snapshot_servers by exact Hm. simpl.
  repeat split.
Qed.

(** C10.  A record whose name and address are both those of a server of the
    registry is skipped; so a second load of the file, whatever resolves
    then, leaves the entries of every record that the first load recovered
    (or knew) as they are.  A record that shares only the address with a
    server of the registry is not skipped: when it is recoverable it is
    appended, and the address is tracked twice. *)
Theorem snapshot_loading_skips_known_targets :
  (forall env item w,
      existsb (key_match item) (servers w) = true ->
      fst (load_item env item w) = Ok tt /\
      servers (snd (load_item env item w)) = servers w) /\
  (forall env1 env2 w item,
      let w1 := snd (read_json_file env1 w) in
      let w2 := snd (read_json_file env2 w1) in
      existsb (key_match item) (servers w1) = true ->
      filter (key_match item) (servers w2) = filter (key_match item) (servers w1)) /\
  (forall env item w,
      info_json w = Some [item] ->
      (exists s, In s (servers w) /\ address s = item_address item) ->
      (forall s, In s (servers w) -> address s = item_address item ->
                 name s <> item_name item) ->
      recoverable env item = true ->
      servers (snd (read_json_file env w)) = (servers w ++ [server_of_item item])%list).
Proof.
  split; [| split].
  - intros env item w Hk.
    destruct (load_item_spec env item w) as [tr [Hr _]]. rewrite Hr.
    unfold load_step. rewrite Hk. now split.
  - intros env1 env2 w item w1 w2 Hk. subst w2.
    destruct (info_json w1) as [data |] eqn:Hd;
      [| unfold read_json_file at 1; now rewrite Hd].
    destruct (read_json_file_spec env2 data w1 Hd) as [tr [Hr _]]. rewrite Hr.
    cbn [snd add_events set_servers servers]. now apply loaded_keeps.
  - intros env item w Hd _ Hname Hrec.
    destruct (read_json_file_spec env [item] w Hd) as [tr [Hr _]]. rewrite Hr.
    cbn [snd add_events set_servers servers loaded]. unfold load_step.
    now rewrite (existsb_key_match_false item (servers w) Hname), Hrec.
Qed.

(* ================================================================== *)
(** ** The registry: [addserver_command] *)

(** [make_message] on a new server either creates the message, or raises
    with nothing done: the handler reads [self.message], which is [None]. *)
Lemma make_message_new (env : Env) (name' address' : string) (ch : TextChannel) (w : World) :
  let self := {| name := name'; address := address'; message := None |} in
  (exists content id,
      let m := {| message_id := id; message_channel := ch |} in
      make_message env self ch w
      = (Ok {| name := name'; address := address'; message := Some m |},
         add_event (Sent m content) w))
  \/ make_message env self ch w = (Raise (AttributeError "edit"), w).
Proof.
  intros self. unfold make_message, try_except, bind, lift. cbn [message self].
  destruct (get_content env self) as [content | e]; [| right; reflexivity].
  unfold send. destruct (channel_send env ch content) as [id | e]; [| right; reflexivity].
  left. exists content, id. reflexivity.
Qed.

(** [addserver_command] when no server has the address. *)
Lemma addserver_command_new (env : Env) (interaction : Interaction)
    (ip name' : string) (port : Z) (w : World) :
  let address' := ip ++ ":" ++ str_of_int port in
  find (fun server => address server =? address') (servers w) = None ->
  addserver_command env interaction ip name' port w
  = match JavaServer_lookup env address' with
    | Some e => (Raise e, w)
    | None =>
        match make_message env {| name := name'; address := address'; message := None |}
                (interaction_channel interaction) w with
        | (Ok server, w1) =>
            (write_json_file env ;;
             send_message ("__" ++ name server ++ " Server Status__") None)
              (set_servers (servers w1 ++ [server]) w1)
        | (Raise e, w1) => (Raise e, w1)
        end
    end.
Proof.
  intros address' Hf. unfold addserver_command. fold address'. rewrite Hf.
  unfold bind at 1. unfold MCServer_init.
  destruct (JavaServer_lookup env address'); [reflexivity |].
  unfold ret at 1. unfold bind at 1.
  destruct (make_message env _ _ w) as [[server | e] w1]; reflexivity.
Qed.

(** [write_json_file] changes neither the registry nor, when it raises,
    anything else. *)
Lemma write_json_file_servers (env : Env) (w : World) :
  servers (snd (write_json_file env w)) = servers w.
Proof. unfold write_json_file. destruct (server_dicts_of _ _); reflexivity. Qed.

(** The registry after [addserver_command]: as before, or, when no server
    had the address and the lookup took it, with one new server at the end,
    which has its message. *)
Lemma addserver_command_servers (env : Env) (interaction : Interaction)
    (ip name' : string) (port : Z) (w : World) :
  let address' := ip ++ ":" ++ str_of_int port in
  let w' := snd (addserver_command env interaction ip name' port w) in
  servers w' = servers w
  \/ (find (fun server => address server =? address') (servers w) = None
      /\ JavaServer_lookup env address' = None
      /\ exists id,
           servers w'
           = (servers w
              ++ [{| name := name'; address := address';
                     message := Some {| message_id := id;
                                        message_channel := interaction_channel interaction |} |}])%list).
Proof.
  intros address' w'. subst w'.
  destruct (find (fun server => address server =? address') (servers w)) as [s |] eqn:Hf.
  - left. unfold addserver_command. fold address'. rewrite Hf.
    destruct (message s); reflexivity.
  - rewrite (addserver_command_new env interaction ip name' port w Hf). fold address'.
    destruct (JavaServer_lookup env address') eqn:Hl; [left; reflexivity |].
    destruct (make_message_new env name' address' (interaction_channel interaction) w)
      as [[content [id Hm]] | Hm]; cbv zeta in Hm; rewrite Hm; [| left; reflexivity].
    right. split; [reflexivity |]. split; [reflexivity |]. exists id.
    unfold bind.
    match goal with |- context [write_json_file env ?w0] =>
      pose proof (write_json_file_servers env w0) as Hw;
      destruct (write_json_file env w0) as [[[] | e] w1] end; exact Hw.
Qed.

Lemma find_address_none (address' : string) (l : list MCServer) :
  find (fun server => address server =? address') l = None ->
  ~ In address' (map address l).
Proof.
  intros Hf Hin. apply in_map_iff in Hin as [s [Ha Hs]].
  pose proof (find_none _ _ Hf s Hs) as H. simpl in H.
  rewrite Ha, String.eqb_refl in H. discriminate.
Qed.

Lemma NoDup_snoc {A} (l : list A) (a : A) : NoDup l -> ~ In a l -> NoDup (l ++ [a]).
Proof.
  intros Hl Ha. apply NoDup_app; [exact Hl | repeat constructor; intros [] |].
  intros x Hx [<- | []]. contradiction.
Qed.

Lemma NoDup_map_injective {A B} (f : A -> B) (l : list A) (x y : A) :
  NoDup (map f l) -> In x l -> In y l -> f x = f y -> x = y.
Proof.
  induction l as [| a l IH]; simpl; intros Hnd Hx Hy Hf; [contradiction |].
  inversion Hnd as [| b bs Hb Hnd']; subst.
  destruct Hx as [-> | Hx], Hy as [-> | Hy]; auto.
  - elim Hb. rewrite Hf. now apply in_map.
  - elim Hb. rewrite <- Hf. now apply in_map.
Qed.

(** [addserver_command] keeps the addresses of the registry distinct and
    every server with its message. *)
Lemma addserver_command_invariant (env : Env) (interaction : Interaction)
    (ip name' : string) (port : Z) (w : World) :
  NoDup (map address (servers w)) /\ Forall has_message (servers w) ->
  let w' := snd (addserver_command env interaction ip name' port w) in
  NoDup (map address (servers w')) /\ Forall has_message (servers w').
Proof.
  intros [Hnd Hm] w'. subst w'.
  destruct (addserver_command_servers env interaction ip name' port w)
    as [-> | [Hf [_ [id ->]]]]; [now split |].
  split.
  - rewrite map_app. apply NoDup_snoc; [exact Hnd |]. now apply find_address_none.
  - apply Forall_app. split; [exact Hm |]. repeat constructor. discriminate.
Qed.

Lemma run_adds_invariant (calls : list AddCall) (w : World) :
  NoDup (map address (servers w)) /\ Forall has_message (servers w) ->
  NoDup (map address (servers (run_adds calls w)))
  /\ Forall has_message (servers (run_adds calls w)).
Proof.
  revert w. induction calls as [| c calls IH]; intros w H; simpl; [exact H |].
  apply IH. now apply addserver_command_invariant.
Qed.

(** C4.  After any sequence of calls of [addserver_command] from an empty
    registry, no two servers of the registry have the same address; and one
    more call with the address of a server of the registry is answered with
    [This server is already added!] and an embed that links to the message of
    that server, by the id of its guild, then of its channel, then of the
    message, and changes neither the registry, so not its size, nor the
    file. *)
Theorem address_uniqueness (calls : list AddCall) (w : World) :
  servers w = [] ->
  let w' := run_adds calls w in
  NoDup (map address (servers w')) /\
  forall env interaction ip name' port existing,
    In existing (servers w') ->
    address existing = ip ++ ":" ++ str_of_int port ->
    exists m,
      message existing = Some m /\
      addserver_command env interaction ip name' port w'
      = (Ok tt,
         add_event
           (Responded "This server is already added!"
              (Some {| title := "Status";
                       description :=
                         "[Go to Message](https://discord.com/channels/"
                         ++ str_of_int (guild_id (channel_guild (message_channel m)))
                         ++ "/" ++ str_of_int (channel_id (message_channel m))
                         ++ "/" ++ str_of_int (message_id m) ++ ")";
                       color := 3447003%Z |}))
           w').
Proof.
  intros Hs w'.
  destruct (run_adds_invariant calls w) as [Hnd Hm];
    [rewrite Hs; split; constructor |].
  fold w' in Hnd, Hm. split; [exact Hnd |].
  intros env interaction ip name' port existing Hin Ha.
  unfold addserver_command.
  destruct (find _ (servers w')) as [s |] eqn:Hf.
  - apply find_some in Hf as [Hs' He]. apply String.eqb_eq in He.
    assert (s = existing) as ->
      by (apply (NoDup_map_injective address (servers w')); congruence).
    rewrite Forall_forall in Hm. specialize (Hm existing Hin).
    destruct (message existing) as [m |] eqn:Hmsg; [| now elim Hm].
    exists m. split; [reflexivity |].
    unfold send_message, emit, message_link, message_guild, Color_blue.
    rewrite !append_assoc. reflexivity.
  - exfalso. apply (find_address_none _ _ Hf). rewrite <- Ha. now apply in_map.
Qed.

(** A call of [addserver_command] that adds a server and returns has saved:
    the file is the snapshot of the registry with the new server. *)
Lemma addserver_command_saves (env : Env) (interaction : Interaction)
    (ip name' : string) (port : Z) (w : World) :
  let w' := snd (addserver_command env interaction ip name' port w) in
  Forall has_message (servers w) ->
  find (fun server => address server =? ip ++ ":" ++ str_of_int port) (servers w) = None ->
  fst (addserver_command env interaction ip name' port w) = Ok tt ->
  length (servers w') = S (length (servers w)) /\
  info_json w' = Some (snapshot_of (servers w')).
Proof.
  intros w' Hm Hf. subst w'.
  rewrite (addserver_command_new env interaction ip name' port w Hf).
  destruct (JavaServer_lookup env _); [discriminate |].
  destruct (make_message_new env name' (ip ++ ":" ++ str_of_int port)
              (interaction_channel interaction) w)
    as [[content [id Hmk]] | Hmk]; cbv zeta in Hmk; rewrite Hmk; [| discriminate].
  unfold bind. rewrite write_json_file_spec.
  - intros _. cbn [snd fst servers info_json add_events add_event set_servers
                     set_info_json send_message emit].
    rewrite length_app. simpl. split; [lia | reflexivity].
  - cbn [servers set_servers add_event]. apply Forall_app. split; [exact Hm |].
    repeat constructor. discriminate.
Qed.

(* ================================================================== *)
(** ** The registry: [removeserver_command] *)

Lemma remove_at_middle {A} (pre post : list A) (s : A) :
  remove_at (length pre) (pre ++ s :: post) = (pre ++ post)%list.
Proof.
  unfold remove_at.
  rewrite firstn_app, firstn_all, Nat.sub_diag, firstn_O, app_nil_r.
  replace (S (length pre)) with (length (pre ++ [s])) by (rewrite length_app; simpl; lia).
  change (pre ++ s :: post)%list with (pre ++ [s] ++ post)%list.
  rewrite app_assoc, skipn_app, skipn_all, Nat.sub_diag. reflexivity.
Qed.

(** The loop stops at [i + length pre]: the server there has an address that
    contains [ip] and a message in guild [g], and no server before it has
    both. *)
Lemma find_removable_found (ip : string) (g : Z) (l : list MCServer) (i j : nat) :
  find_removable ip g l i = Ok (Some j) ->
  exists pre s post,
    l = (pre ++ s :: post)%list /\ j = i + length pre
    /\ str_in ip (address s) = true /\ in_guild g s = true
    /\ Forall (fun x => str_in ip (address x) && in_guild g x = false) pre.
Proof.
  revert i. induction l as [| x l IH]; intros i; simpl; [discriminate |].
  assert (Hrest : find_removable ip g l (S i) = Ok (Some j) ->
                  str_in ip (address x) && in_guild g x = false ->
                  exists pre s post,
                    (x :: l = pre ++ s :: post)%list /\ j = i + length pre
                    /\ str_in ip (address s) = true /\ in_guild g s = true
                    /\ Forall (fun x => str_in ip (address x) && in_guild g x = false) pre).
  { intros H Hx. destruct (IH _ H) as [pre [s [post [-> [-> [Hs [Hg Hpre]]]]]]].
    exists (x :: pre), s, post. simpl. repeat split; auto; lia. }
  unfold in_guild in *. unfold message_guild in *.
  destruct (str_in ip (address x)) eqn:Hin; [| intros H; now apply Hrest].
  destruct (message x) as [m |] eqn:Hm; [| discriminate].
  destruct (guild_id (channel_guild (message_channel m)) =? g)%Z eqn:Hg;
    [| intros H; now apply Hrest].
  intros H. injection H as <-. exists [], x, l. simpl.
  rewrite Hm. unfold message_guild. repeat split; auto.
Qed.

(** The loop finds nothing when every server has its message and none is
    both in guild [g] and at an address that contains [ip]. *)
Lemma find_removable_none (ip : string) (g : Z) (l : list MCServer) (i : nat) :
  Forall has_message l ->
  (forall s, In s l -> in_guild g s = true -> str_in ip (address s) = false) ->
  find_removable ip g l i = Ok None.
Proof.
  intros Hm. revert i. induction Hm as [| x l Hx Hl IH]; intros i H; simpl; [reflexivity |].
  rewrite IH by (intros; apply H; simpl; auto).
  destruct (str_in ip (address x)) eqn:Hin; [| reflexivity].
  destruct (message x) as [m |] eqn:Hmx; [| now elim Hx].
  destruct (guild_id (channel_guild (message_channel m)) =? g)%Z eqn:Hg; [| reflexivity].
  rewrite (H x) in Hin; [discriminate | simpl; auto |].
  unfold in_guild, message_guild. now rewrite Hmx.
Qed.

(** The loop stops at the first server of guild [g] when every address
    contains [ip] and the servers before it have their message. *)
Lemma find_removable_first (ip : string) (g : Z) (pre post : list MCServer)
    (s : MCServer) (i : nat) :
  Forall has_message pre ->
  Forall (fun x => in_guild g x = false) pre ->
  str_in ip (address s) = true ->
  in_guild g s = true ->
  find_removable ip g (pre ++ s :: post) i = Ok (Some (i + length pre)).
Proof.
  intros Hm Hpre Hs Hg. revert i.
  induction pre as [| x pre IH]; intros i; simpl.
  - rewrite Hs. unfold in_guild, message_guild in Hg.
    destruct (message s); [| discriminate]. rewrite Hg. f_equal. f_equal. lia.
  - inversion Hm; inversion Hpre; subst.
    rewrite IH by assumption.
    replace (S i + length pre) with (i + S (length pre)) by lia.
    destruct (str_in ip (address x)); [| reflexivity].
    destruct (message x) as [m |] eqn:Hmx; [| now elim (H1)].
    match goal with H : in_guild g x = false |- _ =>
      unfold in_guild, message_guild in H; rewrite Hmx in H; rewrite H end.
    reflexivity.
Qed.

Lemma first_in_guild (g : Z) (l : list MCServer) :
  (exists s, In s l /\ in_guild g s = true) ->
  exists pre s post,
    l = (pre ++ s :: post)%list /\ in_guild g s = true
    /\ Forall (fun x => in_guild g x = false) pre.
Proof.
  induction l as [| x l IH]; intros [s [Hin Hs]]; [destruct Hin |].
  destruct (in_guild g x) eqn:Hx.
  - exists [], x, l. repeat split; auto.
  - destruct IH as [pre [s' [post [-> [Hs' Hpre]]]]].
    + destruct Hin as [-> | Hin]; [congruence | eauto].
    + exists (x :: pre), s', post. repeat split; auto.
Qed.

Lemma fold_address_lines (l : list MCServer) (response : string) :
  fold_left (fun response server => response ++ address server ++ nl) l response
  = response ++ address_lines l.
Proof.
  revert response; induction l as [| s l IH]; intros response; simpl.
  - now rewrite append_empty_r.
  - rewrite IH. now rewrite !append_assoc.
Qed.

(** The three ways [removeserver_command] ends: one server of the guild of
    the interaction is taken out; or nothing is found and the answer is sent;
    or the loop raises, with nothing done. *)
Lemma removeserver_command_cases (env : Env) (interaction : Interaction) (ip : string)
    (w : World) :
  let g := guild_id (interaction_guild interaction) in
  (exists pre s post,
      servers w = (pre ++ s :: post)%list /\ in_guild g s = true
      /\ str_in ip (address s) = true
      /\ removeserver_command env interaction ip w
         = (Ok tt, add_event (Responded "Removed server!" None)
                     (set_servers (pre ++ post) w)))
  \/ (exists response,
         removeserver_command env interaction ip w
         = (Ok tt, add_event (Responded response None) w))
  \/ (exists e, removeserver_command env interaction ip w = (Raise e, w)).
Proof.
  intros g. unfold removeserver_command. fold g.
  destruct (find_removable ip g (servers w) 0) as [[j |] | e] eqn:Hf.
  - left. apply find_removable_found in Hf as [pre [s [post [Hl [-> [Hs [Hg _]]]]]]].
    exists pre, s, post. repeat split; auto.
    unfold bind, send_message, emit. cbn [servers set_servers].
    rewrite Hl. simpl. now rewrite remove_at_middle.
  - right. left. eexists. reflexivity.
  - right. right. exists e. reflexivity.
Qed.

(** [removeserver_command] never touches the file. *)
Lemma removeserver_command_info_json (env : Env) (interaction : Interaction) (ip : string)
    (w : World) :
  info_json (snd (removeserver_command env interaction ip w)) = info_json w.
Proof.
  destruct (removeserver_command_cases env interaction ip w)
    as [[pre [s [post [_ [_ [_ ->]]]]]] | [[response ->] | [e ->]]]; reflexivity.
Qed.

(** C5, as amended.  The scope that [removeserver_command] checks is the
    guild: a call from one guild never takes out a server whose message is
    in another guild, whatever the fragment; the servers outside the guild of
    the call are the same, in the same order, after the call. *)
Theorem remove_keeps_other_guilds (env : Env) (interaction : Interaction) (ip : string)
    (w : World) :
  let g := guild_id (interaction_guild interaction) in
  let w' := snd (removeserver_command env interaction ip w) in
  filter (fun s => negb (in_guild g s)) (servers w')
  = filter (fun s => negb (in_guild g s)) (servers w)
  /\ forall s, In s (servers w) -> in_guild g s = false -> In s (servers w').
Proof.
  intros g w'.
  assert (H : filter (fun s => negb (in_guild g s)) (servers w')
              = filter (fun s => negb (in_guild g s)) (servers w)).
  { subst w'.
    destruct (removeserver_command_cases env interaction ip w)
      as [[pre [s [post [Hl [Hg [_ ->]]]]]] | [[response ->] | [e ->]]];
      try reflexivity.
    fold g in Hg. cbn [snd servers add_event set_servers]. rewrite Hl, !filter_app.
    simpl. now rewrite Hg. }
  split; [exact H |].
  intros s Hin Hs.
  assert (Hf : In s (filter (fun s => negb (in_guild g s)) (servers w)))
    by (apply filter_In; split; [exact Hin | now rewrite Hs]).
  rewrite <- H in Hf. now apply filter_In in Hf.
Qed.

(** C6, as amended.  When every server has its message and no server of the
    guild of the call has an address that contains the fragment,
    [removeserver_command] changes neither the registry nor the file, and
    answers [There are no servers added.] when the registry is empty, and
    otherwise with the addresses of all the servers of the registry, those
    of other guilds too. *)
Theorem remove_not_found_response (env : Env) (interaction : Interaction) (ip : string)
    (w : World) :
  Forall has_message (servers w) ->
  (forall s, In s (servers w) ->
             in_guild (guild_id (interaction_guild interaction)) s = true ->
             str_in ip (address s) = false) ->
  removeserver_command env interaction ip w
  = (Ok tt,
     add_event
       (Responded
          (match servers w with
           | [] => "There are no servers added."
           | _ :: _ =>
               "Did not find server." ++ nl ++ nl ++ "Existing Servers:" ++ nl
               ++ address_lines (servers w)
           end) None)
       w).
Proof.
  intros Hm Hno. unfold removeserver_command.
  rewrite (find_removable_none ip _ (servers w) 0 Hm Hno).
  destruct (servers w) as [| s l] eqn:Hl; [reflexivity |].
  rewrite fold_address_lines, !append_assoc. reflexivity.
Qed.

(** C9.  The empty fragment is contained in every address; so in a registry
    whose servers have their message and where the guild of the call has a
    server, [removeserver_command] with the empty fragment takes out the
    first server of that guild in the order of the registry, and answers
    [Removed server!]. *)
Theorem remove_empty_fragment_takes_first (env : Env) (interaction : Interaction)
    (w : World) :
  let g := guild_id (interaction_guild interaction) in
  Forall has_message (servers w) ->
  (exists s, In s (servers w) /\ in_guild g s = true) ->
  (forall a, str_in "" a = true) /\
  exists pre s post,
    servers w = (pre ++ s :: post)%list
    /\ in_guild g s = true
    /\ Forall (fun x => in_guild g x = false) pre
    /\ removeserver_command env interaction "" w
       = (Ok tt, add_event (Responded "Removed server!" None)
                   (set_servers (pre ++ post) w)).
Proof.
  intros g Hm Hex. split; [exact str_in_empty |].
  destruct (first_in_guild g (servers w) Hex) as [pre [s [post [Hl [Hs Hpre]]]]].
  exists pre, s, post. repeat split; auto.
  unfold removeserver_command. fold g. rewrite Hl.
  rewrite (find_removable_first "" g pre post s 0); auto using str_in_empty.
  - unfold bind, send_message, emit. cbn [servers set_servers plus].
    rewrite Hl. now rewrite remove_at_middle.
  - rewrite Hl in Hm. now apply Forall_app in Hm.
Qed.

(* ================================================================== *)
(** ** The invariant of the registry *)

Lemma tracked_nil (lookup : string -> option exn) : tracked lookup [].
Proof. split; constructor. Qed.

Lemma tracked_snoc (lookup : string -> option exn) (reg : list MCServer) (s : MCServer) :
  tracked lookup reg ->
  has_message s -> lookup (address s) = None -> ~ In (key s) (map key reg) ->
  tracked lookup (reg ++ [s]).
Proof.
  intros [Hm Ha Hnd] Hs Hl Hk. split.
  - apply Forall_app. split; [exact Hm | now repeat constructor].
  - apply Forall_app. split; [exact Ha | now repeat constructor].
  - rewrite map_app. now apply NoDup_snoc.
Qed.

Lemma tracked_remove_middle (lookup : string -> option exn) (pre post : list MCServer)
    (s : MCServer) :
  tracked lookup (pre ++ s :: post) -> tracked lookup (pre ++ post).
Proof.
  intros [Hm Ha Hnd]. apply Forall_app in Hm as [Hm1 Hm2], Ha as [Ha1 Ha2].
  inversion Hm2; inversion Ha2; subst. split.
  - apply Forall_app. now split.
  - apply Forall_app. now split.
  - rewrite map_app in *. simpl in Hnd. now apply NoDup_remove_1 in Hnd.
Qed.

Lemma existsb_key_match_key (item : Item) (reg : list MCServer) :
  existsb (key_match item) reg = false -> ~ In (item_key item) (map key reg).
Proof.
  intros H Hin. apply in_map_iff in Hin as [s [Hk Hs]].
  assert (Ht : existsb (key_match item) reg = true); [| congruence].
  apply existsb_exists. exists s. split; [exact Hs |].
  unfold key, item_key in Hk. injection Hk as Hn Ha.
  unfold key_match. now rewrite Hn, Ha, !String.eqb_refl.
Qed.

(** [addserver_command] keeps the invariant. *)
Lemma tracked_addserver_command (env : Env) (interaction : Interaction)
    (ip name' : string) (port : Z) (w : World) :
  tracked (JavaServer_lookup env) (servers w) ->
  tracked (JavaServer_lookup env)
    (servers (snd (addserver_command env interaction ip name' port w))).
Proof.
  intros Ht.
  destruct (addserver_command_servers env interaction ip name' port w)
    as [-> | [Hf [Hl [id ->]]]]; [exact Ht |].
  apply tracked_snoc; [exact Ht | discriminate | exact Hl |].
  intros Hin. apply (find_address_none _ _ Hf).
  apply in_map_iff in Hin as [s [Hk Hs]]. apply in_map_iff. exists s.
  split; [| exact Hs]. unfold key in Hk. simpl in Hk. now injection Hk.
Qed.

(** [removeserver_command] keeps the invariant. *)
Lemma tracked_removeserver_command (lookup : string -> option exn) (env : Env)
    (interaction : Interaction) (ip : string) (w : World) :
  tracked lookup (servers w) ->
  tracked lookup (servers (snd (removeserver_command env interaction ip w))).
Proof.
  intros Ht.
  destruct (removeserver_command_cases env interaction ip w)
    as [[pre [s [post [Hl [_ [_ ->]]]]]] | [[response ->] | [e ->]]];
    try exact Ht.
  cbn [snd servers add_event set_servers]. rewrite Hl in Ht.
  now apply tracked_remove_middle in Ht.
Qed.

(** [read_json_file] keeps the invariant. *)
Lemma tracked_loaded (env : Env) (data : list Item) (reg : list MCServer) :
  tracked (JavaServer_lookup env) reg -> tracked (JavaServer_lookup env) (loaded env data reg).
Proof.
  revert reg. induction data as [| item data IH]; intros reg Ht; simpl; [exact Ht |].
  apply IH. unfold load_step.
  destruct (existsb (key_match item) reg) eqn:Hk; [exact Ht |].
  destruct (recoverable env item) eqn:Hrec; [| exact Ht].
  apply tracked_snoc; [exact Ht | discriminate | | now apply existsb_key_match_key].
  unfold recoverable in Hrec. apply andb_prop in Hrec as [_ Hl]. simpl.
  now destruct (JavaServer_lookup env (item_address item)).
Qed.

Lemma tracked_read_json_file (env : Env) (w : World) :
  tracked (JavaServer_lookup env) (servers w) ->
  tracked (JavaServer_lookup env) (servers (snd (read_json_file env w))).
Proof.
  intros Ht. destruct (info_json w) as [data |] eqn:Hd.
  - destruct (read_json_file_spec env data w Hd) as [tr [-> _]].
    now apply tracked_loaded.
  - unfold read_json_file. now rewrite Hd.
Qed.

(** The snapshot of a registry that satisfies the invariant has pairwise
    distinct (name, address), and addresses the lookup takes. *)
Lemma tracked_snapshot (lookup : string -> option exn) (reg : list MCServer) :
  tracked lookup reg ->
  NoDup (map item_key (snapshot_of reg))
  /\ forall item, In item (snapshot_of reg) -> lookup (item_address item) = None.
Proof.
  intros [Hm Ha Hnd]. split; [now rewrite snapshot_keys |].
  intros item Hin. apply (in_map server_of_item) in Hin.
  rewrite snapshot_servers in Hin by exact Hm.
  rewrite Forall_forall in Ha. exact (Ha _ Hin).
Qed.

(** [get_status] and a tick change the trace only. *)
Lemma get_status_keeps_state (env : Env) (self : MCServer) (w : World) :
  servers (snd (get_status env self w)) = servers w
  /\ info_json (snd (get_status env self w)) = info_json w.
Proof.
  unfold get_status, try_except, bind, lift, handle_exception, bind, edit, print, emit, raise.
  destruct (get_content env self) as [content | e]; destruct (message self) as [m |];
    try (split; reflexivity).
  - destruct (message_edit env m content); [| split; reflexivity].
    destruct (message_edit env m _); split; reflexivity.
  - destruct (message_edit env m _); split; reflexivity.
Qed.

Lemma for_each_get_status_keeps_state (env : Env) (l : list MCServer) (w : World) :
  servers (snd (for_each l (get_status env) w)) = servers w
  /\ info_json (snd (for_each l (get_status env) w)) = info_json w.
Proof.
  revert w. induction l as [| s l IH]; intros w; simpl; [split; reflexivity |].
  unfold bind. destruct (get_status_keeps_state env s w) as [Hs Hf].
  destruct (get_status env s w) as [[[] | e] w1]; simpl in Hs, Hf.
  - destruct (IH w1) as [Hs1 Hf1]. split; congruence.
  - split; assumption.
Qed.

Lemma poll_servers_keeps_state (env : Env) (w : World) :
  servers (snd (poll_servers env w)) = servers w
  /\ info_json (snd (poll_servers env w)) = info_json w.
Proof. apply for_each_get_status_keeps_state. Qed.

Lemma tracked_agrees (env : Env) (lookup : string -> option exn) (reg : list MCServer) :
  agrees env lookup -> tracked (JavaServer_lookup env) reg <-> tracked lookup reg.
Proof.
  intros Ha. split; intros [Hm Hl Hnd]; split; auto;
    (eapply Forall_impl; [| exact Hl]); intros s Hs; simpl in *;
    [rewrite <- Ha | rewrite Ha]; exact Hs.
Qed.

(** The file after [addserver_command] on a registry whose servers have
    their message: as before, or the snapshot of the registry. *)
Lemma addserver_command_info_json (env : Env) (interaction : Interaction)
    (ip name' : string) (port : Z) (w : World) :
  let w' := snd (addserver_command env interaction ip name' port w) in
  Forall has_message (servers w) ->
  info_json w' = info_json w \/ info_json w' = Some (snapshot_of (servers w')).
Proof.
  intros w' Hm. subst w'.
  destruct (find (fun server => address server =? ip ++ ":" ++ str_of_int port) (servers w))
    as [s |] eqn:Hf.
  - left. unfold addserver_command. rewrite Hf. destruct (message s); reflexivity.
  - rewrite (addserver_command_new env interaction ip name' port w Hf).
    destruct (JavaServer_lookup env _); [left; reflexivity |].
    destruct (make_message_new env name' (ip ++ ":" ++ str_of_int port)
                (interaction_channel interaction) w)
      as [[content [id Hmk]] | Hmk]; cbv zeta in Hmk; rewrite Hmk; [| left; reflexivity].
    right. unfold bind. rewrite write_json_file_spec; [reflexivity |].
    cbn [servers set_servers add_event]. apply Forall_app. split; [exact Hm |].
    repeat constructor. discriminate.
Qed.

(** Every world the program gets to satisfies the invariant, and its file,
    when there is one, is a snapshot as [recovery_partial_failure] takes it. *)
Lemma reachable_invariant (lookup : string -> option exn) (w : World) :
  reachable lookup w -> tracked lookup (servers w) /\ snapshot_ok lookup (info_json w).
Proof.
  induction 1 as [| env w Hr [Ht Hf] Ha | env w Hr [Ht Hf]
                  | env interaction ip name' port w Hr [Ht Hf] Ha
                  | env interaction ip w Hr [Ht Hf] | w Hr [Ht Hf]].
  - split; [apply tracked_nil | exact I].
  - unfold on_ready, bind. destruct (servers w) as [| s l] eqn:Hl;
      [| unfold ret; cbn [snd print emit add_event servers info_json];
         rewrite Hl; now split].
    destruct (info_json w) as [data |] eqn:Hd.
    + destruct (read_json_file_spec env data w Hd) as [tr [-> _]].
      cbn [snd print emit add_event add_events set_servers servers info_json].
      rewrite Hd. split; [| exact Hf].
      apply (tracked_agrees env lookup _ Ha). apply tracked_loaded.
      apply (tracked_agrees env lookup _ Ha). now rewrite Hl.
    + unfold read_json_file. rewrite Hd.
      cbn [snd print emit add_event servers info_json]. rewrite Hl, Hd. now split.
  - destruct (poll_servers_keeps_state env w) as [-> ->]. now split.
  - split.
    + apply (tracked_agrees env lookup _ Ha). apply tracked_addserver_command.
      now apply (tracked_agrees env lookup _ Ha).
    + destruct (addserver_command_info_json env interaction ip name' port w
                  (tracked_message _ _ Ht)) as [-> | ->]; [exact Hf |].
      apply tracked_snapshot. apply (tracked_agrees env lookup _ Ha).
      apply tracked_addserver_command. now apply (tracked_agrees env lookup _ Ha).
  - split; [now apply tracked_removeserver_command |].
    now rewrite removeserver_command_info_json.
  - split; [apply tracked_nil | exact Hf].
Qed.

(* ================================================================== *)
(** ** The program on concrete inputs *)

(** C2, on a concrete run.  [addserver_command] saves: after the add the file
    is the snapshot of the registry.  [removeserver_command] does not: after
    the remove the registry is empty and the file still holds the record of
    the removed server, and the next start of the process recovers it. *)
Theorem removal_is_not_saved :
  let added :=
    snd (addserver_command alice_online from_channel_10 "1.2.3.4" "Survival" 25565
           empty_world) in
  let removed := removeserver_command alice_online from_channel_10 "1.2.3.4" added in
  servers added = [survival] /\
  info_json added = Some (snapshot_of (servers added)) /\
  fst removed = Ok tt /\
  servers (snd removed) = [] /\
  info_json (snd removed) = Some (snapshot_of [survival]) /\
  info_json (snd removed) <> Some (snapshot_of (servers (snd removed))) /\
  servers (snd (read_json_file alice_online (restart (snd removed)))) = [survival].
Proof. vm_compute. repeat split; try reflexivity; discriminate. Qed.

(** C3, on a concrete tick over Creative, Survival and Lobby, in which the
    status query of Survival raises.  When the messaging service takes the
    edit of the offline text, the failure stays with Survival: its message is
    edited, one line goes to the log, stamped by [get_log_time], and Lobby is
    processed.  When the service refuses that edit (the message of Survival
    was deleted), the handler of [get_status], which is outside the [try],
    raises: the tick ends with that exception, nothing is logged, and Lobby is
    not processed. *)
Theorem status_failure_escapes_the_handler :
  poll_servers survival_down (world_of [creative; survival; lobby])
  = (Ok tt,
     add_events
       [Edited message_200 "Creative is **online** with 0 online players.";
        Edited message_100 "Survival is **offline**: ConnectionRefused";
        Log noon "Error looking up server Survival (1.2.3.4:25565) status: ConnectionRefused";
        Edited {| message_id := 101; message_channel := channel_11 |}
          "Lobby is **online** with 0 online players."]
       (world_of [creative; survival; lobby]))
  /\ stdout (trace (snd (poll_servers survival_down (world_of [creative; survival; lobby]))))
     = ["12:00:05> Error looking up server Survival (1.2.3.4:25565) status: ConnectionRefused"]
  /\ JavaServer_status survival_down_message_gone (address survival)
     = Raise "ConnectionRefused"
  /\ poll_servers survival_down_message_gone (world_of [creative; survival; lobby])
     = (Raise "404 Not Found",
        add_events
          [Edited message_200 "Creative is **online** with 0 online players."]
          (world_of [creative; survival; lobby]))
  /\ edited (trace (snd (poll_servers survival_down_message_gone
                           (world_of [creative; survival; lobby]))))
     = [message_200]
  /\ stdout (trace (snd (poll_servers survival_down_message_gone
                           (world_of [creative; survival; lobby]))))
     = [].
Proof. vm_compute. repeat split. Qed.

(** C1, the claim fails as stated: a status with 0 players renders as
    [Creative is **online** with 0 online players.], and a failure as
    [Survival is **offline**: ConnectionRefused]; the formats of the
    specification have no bold marks. *)
Lemma rendered_text_differs_from_spec :
  get_content survival_down creative = Ok "Creative is **online** with 0 online players."
  /\ get_content survival_down creative <> Ok (spec_online "Creative" 0 [])
  /\ trace (snd (get_status survival_down survival (world_of [survival])))
     = [Edited message_100 "Survival is **offline**: ConnectionRefused";
        Log noon "Error looking up server Survival (1.2.3.4:25565) status: ConnectionRefused"]
  /\ "Survival is **offline**: ConnectionRefused"
     <> spec_offline "Survival" "ConnectionRefused".
Proof. vm_compute. repeat split; try reflexivity; discriminate. Qed.

(** C5, the claim fails as stated: the server [survival] is registered under
    guild 1 and channel 10; a remove from channel 11 of guild 1, another
    scope, takes it out. *)
Lemma remove_from_other_channel :
  target_scope survival = Some (1, 10)%Z
  /\ interaction_scope from_channel_11 = (1, 11)%Z
  /\ target_scope survival <> Some (interaction_scope from_channel_11)
  /\ removeserver_command alice_online from_channel_11 "1.2.3.4" (world_of [survival])
     = (Ok tt,
        {| servers := []; info_json := None;
           trace := [Responded "Removed server!" None] |}).
Proof. vm_compute. repeat split; try reflexivity; discriminate. Qed.

(** C6, the claim fails as stated: a remove from guild 1 that finds nothing
    lists the address of [creative], a server of guild 2, after the address
    of the server of its own scope. *)
Lemma not_found_lists_other_scopes :
  removeserver_command alice_online from_channel_10 "9.9.9.9"
    (world_of [survival; creative])
  = (Ok tt,
     add_event
       (Responded
          ("Did not find server." ++ nl ++ nl ++ "Existing Servers:" ++ nl
           ++ "1.2.3.4:25565" ++ nl ++ "5.6.7.8:25565" ++ nl) None)
       (world_of [survival; creative]))
  /\ spec_not_found (interaction_scope from_channel_10) [survival; creative]
     = "Did not find server." ++ nl ++ nl ++ "Existing Servers:" ++ nl
       ++ "1.2.3.4:25565" ++ nl
  /\ "Did not find server." ++ nl ++ nl ++ "Existing Servers:" ++ nl
     ++ "1.2.3.4:25565" ++ nl ++ "5.6.7.8:25565" ++ nl
     <> spec_not_found (interaction_scope from_channel_10) [survival; creative].
Proof. vm_compute. repeat split; try reflexivity; discriminate. Qed.

(** The renderer at Alice alone, at a failure, at an empty server and at two
    players. *)
Lemma rendered_status_text_witness :
  handle_exception survival_down survival "ConnectionRefused" (world_of [survival])
  = (Ok tt,
     add_events
       [Edited message_100 "Survival is **offline**: ConnectionRefused";
        Log noon "Error looking up server Survival (1.2.3.4:25565) status: ConnectionRefused"]
       (world_of [survival]))
  /\ get_content survival_down creative
     = Ok "Creative is **online** with 0 online players."
  /\ get_content alice_online survival
     = Ok ("Survival is **online** with 1 online player." ++ nl ++ nl ++ "Player:" ++ nl
           ++ "Alice" ++ nl)
  /\ get_content (calm (fun _ => Ok (status_of 2 ["A"; "B"])) 100) survival
     = Ok ("Survival is **online** with 2 online players." ++ nl ++ nl ++ "Players:" ++ nl
           ++ "A" ++ nl ++ "B" ++ nl).
Proof.
  destruct rendered_status_text as [H1 [H2 [H3 H4]]].
  split; [| split; [| split]].
  - exact (H1 survival_down survival message_100 "ConnectionRefused"
             (world_of [survival]) eq_refl eq_refl).
  - exact (H2 survival_down creative (status_of 0 []) eq_refl eq_refl).
  - exact (H3 alice_online survival (status_of 1 ["Alice"])
             [{| player_name := "Alice" |}] eq_refl eq_refl eq_refl).
  - refine (H4 (calm (fun _ => Ok (status_of 2 ["A"; "B"])) 100) survival
              (status_of 2 ["A"; "B"])
              [{| player_name := "A" |}; {| player_name := "B" |}] eq_refl _ eq_refl).
    simpl. lia.
Defined.

(** A tick over three servers, the second of which refuses the connection. *)
Lemma status_failure_is_local_witness :
  poll_servers survival_down (world_of [creative; survival; lobby])
  = for_each [lobby] (get_status survival_down)
      (add_events
         [Edited message_200 "Creative is **online** with 0 online players.";
          Edited message_100 "Survival is **offline**: ConnectionRefused";
          Log noon "Error looking up server Survival (1.2.3.4:25565) status: ConnectionRefused"]
         (world_of [creative; survival; lobby])).
Proof.
  exact (proj2 (status_failure_is_local survival_down
                  (world_of [creative; survival; lobby])
                  (add_event (Edited message_200 "Creative is **online** with 0 online players.")
                     (world_of [creative; survival; lobby]))
                  [creative] [lobby] survival message_100 "ConnectionRefused"
                  eq_refl eq_refl eq_refl eq_refl eq_refl)).
Defined.

Lemma address_uniqueness_witness :
  map address (servers (run_adds three_adds empty_world))
  = ["1.2.3.4:25565"; "5.6.7.8:25565"]
  /\ NoDup (map address (servers (run_adds three_adds empty_world)))
  /\ addserver_command survival_down from_channel_20 "1.2.3.4" "Hardcore" 25565
       (run_adds three_adds empty_world)
     = (Ok tt,
        add_event
          (Responded "This server is already added!"
             (Some {| title := "Status";
                      description :=
                        "[Go to Message](https://discord.com/channels/1/10/100)";
                      color := 3447003%Z |}))
          (run_adds three_adds empty_world)).
Proof.
  split; [reflexivity |].
  split; [exact (proj1 (address_uniqueness three_adds empty_world eq_refl)) |].
  destruct (proj2 (address_uniqueness three_adds empty_world eq_refl)
              survival_down from_channel_20 "1.2.3.4" "Hardcore" 25565%Z survival
              (or_introl eq_refl) eq_refl) as [m [Hm H]].
  injection Hm as <-. exact H.
Defined.

Lemma remove_keeps_other_guilds_witness :
  In creative
    (servers (snd (removeserver_command alice_online from_channel_10 "5.6.7.8"
                     (world_of [survival; creative])))).
Proof.
  refine (proj2 (remove_keeps_other_guilds alice_online from_channel_10 "5.6.7.8"
                   (world_of [survival; creative])) creative _ eq_refl).
  right. left. reflexivity.
Defined.

Lemma remove_not_found_response_witness :
  removeserver_command alice_online from_channel_10 "5.6.7.8"
    (world_of [survival; creative])
  = (Ok tt,
     add_event
       (Responded
          ("Did not find server." ++ nl ++ nl ++ "Existing Servers:" ++ nl
           ++ address_lines [survival; creative]) None)
       (world_of [survival; creative])).
Proof.
  refine (remove_not_found_response alice_online from_channel_10 "5.6.7.8"
            (world_of [survival; creative]) _ _).
  - repeat constructor; discriminate.
  - intros s [<- | [<- | []]]; [reflexivity | discriminate].
Defined.

Lemma remove_empty_fragment_takes_first_witness :
  exists pre s post,
    servers (world_of [creative; survival; lobby]) = (pre ++ s :: post)%list
    /\ in_guild 1 s = true
    /\ Forall (fun x => in_guild 1 x = false) pre
    /\ removeserver_command alice_online from_channel_11 ""
         (world_of [creative; survival; lobby])
       = (Ok tt, add_event (Responded "Removed server!" None)
                   (set_servers (pre ++ post) (world_of [creative; survival; lobby]))).
Proof.
  refine (proj2 (remove_empty_fragment_takes_first alice_online from_channel_11
                   (world_of [creative; survival; lobby]) _ _)).
  - repeat constructor; discriminate.
  - exists survival. split; [right; left; reflexivity | reflexivity].
Defined.

Lemma tracked_two_servers : tracked (fun _ => None) [survival; creative].
Proof.
  split.
  - repeat constructor; discriminate.
  - repeat constructor.
  - repeat constructor; simpl; intuition discriminate.
Defined.

Lemma persistence_round_trip_witness :
  servers (snd (read_json_file alice_online
                  (restart (snd (write_json_file alice_online
                                   (world_of [survival; creative]))))))
  = [survival; creative].
Proof.
  refine (proj1 (proj2 (proj2 (proj2
            (persistence_round_trip alice_online alice_online
               (world_of [survival; creative]) tracked_two_servers _))))).
  repeat constructor.
  - exists message_100. split; reflexivity.
  - exists message_200. split; reflexivity.
Defined.

Lemma recovery_partial_failure_witness :
  servers (snd (read_json_file message_200_deleted
                  (world_with_file (snapshot_of [survival; creative]))))
  = [survival]
  /\ warnings (trace (snd (read_json_file message_200_deleted
                             (world_with_file (snapshot_of [survival; creative])))))
     = 0 + (2 - 1).
Proof.
  pose proof (recovery_partial_failure message_200_deleted
                (snapshot_of [survival; creative])
                (world_with_file (snapshot_of [survival; creative]))
                eq_refl eq_refl
                (proj1 (tracked_snapshot _ _ tracked_two_servers))
                (fun _ _ => eq_refl)) as H.
  cbv zeta in H. destruct H as [_ [H1 [_ [H2 _]]]].
  split; [exact H1 | exact H2].
Defined.

Lemma snapshot_loading_skips_known_targets_witness :
  servers (snd (load_item alice_online (dict_of survival message_100)
                  (world_of [survival])))
  = [survival]
  /\ filter (key_match (dict_of survival message_100))
       (servers (snd (read_json_file alice_online
                        (snd (read_json_file alice_online
                                (world_with_file (snapshot_of [survival; creative])))))))
     = [survival]
  /\ servers (snd (read_json_file alice_online
                     {| servers := [survival];
                        info_json :=
                          Some [{| item_name := "Hardcore";
                                   item_address := "1.2.3.4:25565";
                                   item_guild_id := 2; item_channel_id := 20;
                                   item_message_id := 201 |}];
                        trace := [] |}))
     = [survival;
        {| name := "Hardcore"; address := "1.2.3.4:25565";
           message := Some {| message_id := 201; message_channel := channel_20 |} |}].
Proof.
  destruct snapshot_loading_skips_known_targets as [H1 [H2 H3]].
  split; [| split].
  - exact (proj2 (H1 alice_online (dict_of survival message_100) (world_of [survival])
                    eq_refl)).
  - exact (H2 alice_online alice_online
             (world_with_file (snapshot_of [survival; creative]))
             (dict_of survival message_100) eq_refl).
  - refine (H3 alice_online
              {| item_name := "Hardcore"; item_address := "1.2.3.4:25565";
                 item_guild_id := 2; item_channel_id := 20; item_message_id := 201 |}
              {| servers := [survival];
                 info_json :=
                   Some [{| item_name := "Hardcore"; item_address := "1.2.3.4:25565";
                            item_guild_id := 2; item_channel_id := 20;
                            item_message_id := 201 |}];
                 trace := [] |} eq_refl _ _ eq_refl).
    + exists survival. split; [left; reflexivity | reflexivity].
    + intros s [<- | []] _. discriminate.
Defined.

(* ================================================================== *)
(** * Further properties of the program *)

(* ================================================================== *)
(** ** Containment of strings, and the stamp of the log *)

Lemma prefix_split (a s : string) :
  prefix a s = true <-> exists post, s = a ++ post.
Proof.
  revert s. induction a as [| x a IH]; intros s.
  - rewrite prefix_empty. split; [exists s; reflexivity | reflexivity].
  - destruct s as [| y s]; simpl.
    + split; [discriminate | intros [post H]; discriminate].
    + destruct (ascii_dec x y) as [-> | Hne].
      * rewrite IH. split; intros [post H]; exists post; [now rewrite H | now injection H].
      * split; [discriminate | intros [post H]; congruence].
Qed.

Lemma str_in_unfold (sub s : string) :
  str_in sub s
  = if prefix sub s then true
    else match s with
         | EmptyString => false
         | String _ s' => str_in sub s'
         end.
Proof. destruct s; reflexivity. Qed.

(** X1.  The test [ip in server.address] of [removeserver_command] is
    containment: [str_in sub s] holds exactly when [s] is some text, then
    [sub], then some text. *)
Theorem str_in_is_containment (sub s : string) :
  str_in sub s = true <-> exists pre post, s = pre ++ sub ++ post.
Proof.
  split.
  - induction s as [| c s IH]; rewrite str_in_unfold.
    + destruct (prefix sub "") eqn:Hp; [| discriminate]. intros _.
      apply prefix_split in Hp as [post Hp]. exists "", post. exact Hp.
    + destruct (prefix sub (String c s)) eqn:Hp.
      * intros _. apply prefix_split in Hp as [post Hp]. exists "", post. exact Hp.
      * intros H. destruct (IH H) as [pre [post ->]]. exists (String c pre), post.
        reflexivity.
  - intros [pre [post ->]]. induction pre as [| c pre IH]; rewrite str_in_unfold.
    + cbn [append]. now rewrite prefix_append.
    + cbn [append]. rewrite IH.
      now destruct (prefix sub (String c (pre ++ sub ++ post))).
Qed.

Lemma str_in_is_containment_witness :
  str_in "2.3" "1.2.3.4:25565" = true.
Proof. apply (str_in_is_containment "2.3" "1.2.3.4:25565"). exists "1.", ".4:25565". reflexivity. Defined.

Lemma length_append (a b : string) :
  String.length (a ++ b) = String.length a + String.length b.
Proof. induction a as [| x a IH]; simpl; [reflexivity | now rewrite IH]. Qed.

Lemma get_log_time_fields (time : Time) :
  get_log_time time
  = two_digits (hour time) ++ ":" ++ two_digits (minute time) ++ ":"
    ++ two_digits (second time).
Proof.
  unfold get_log_time, two_digits.
  destruct (hour time <? 10)%nat, (minute time <? 10)%nat, (second time <? 10)%nat;
    simpl; now rewrite ?append_assoc.
Qed.

Lemma two_digits_length (n : nat) : n < 100 -> String.length (two_digits n) = 2.
Proof.
  intros Hn.
  assert (H : forallb (fun k => String.length (two_digits k) =? 2)%nat (seq 0 100) = true)
    by (vm_compute; reflexivity).
  rewrite forallb_forall in H. apply Nat.eqb_eq, H, in_seq. lia.
Qed.

(** X2.  For a time of the day, [get_log_time] gives eight characters, two
    for each field with [:] between them: the hour, the minute and the second
    are padded to two digits. *)
Theorem get_log_time_is_fixed_width (time : Time) :
  hour time < 24 -> minute time < 60 -> second time < 60 ->
  String.length (get_log_time time) = 8
  /\ substring 2 1 (get_log_time time) = ":"
  /\ substring 5 1 (get_log_time time) = ":".
Proof.
  intros Hh Hm Hs. rewrite get_log_time_fields.
  assert (H2 : forall n, n < 100 ->
                 exists a b, two_digits n = String a (String b "")).
  { intros n Hn. pose proof (two_digits_length n Hn) as Hl.
    destruct (two_digits n) as [| a [| b [| c r]]]; try discriminate. eauto. }
  destruct (H2 (hour time)) as [h1 [h2 ->]]; [lia |].
  destruct (H2 (minute time)) as [m1 [m2 ->]]; [lia |].
  destruct (H2 (second time)) as [s1 [s2 ->]]; [lia |].
  repeat split.
Qed.

Lemma get_log_time_is_fixed_width_witness :
  String.length (get_log_time {| hour := 9; minute := 5; second := 30 |}) = 8
  /\ get_log_time {| hour := 9; minute := 5; second := 30 |} = "09:05:30".
Proof.
  split; [| reflexivity].
  apply (get_log_time_is_fixed_width {| hour := 9; minute := 5; second := 30 |});
    simpl; lia.
Defined.

(* ================================================================== *)
(** ** The poller, further *)

Lemma edited_app (tr1 tr2 : list Event) : edited (tr1 ++ tr2) = (edited tr1 ++ edited tr2)%list.
Proof.
  induction tr1 as [| ev tr1 IH]; simpl; [reflexivity |].
  destruct ev; simpl; now rewrite IH.
Qed.

Lemma for_each_get_status_edits (env : Env) (l : list MCServer) (w : World) :
  Forall has_message l ->
  (forall m content, message_edit env m content = None) ->
  exists tr,
    for_each l (get_status env) w = (Ok tt, add_events tr w)
    /\ map Some (edited tr) = map message l.
Proof.
  intros Hl Hedit. revert w.
  induction Hl as [| s l Hs Hl IH]; intros w; simpl.
  - exists []. rewrite add_events_nil. now unfold ret.
  - destruct (message s) as [m |] eqn:Hm; [| now elim Hs].
    destruct (get_content env s) as [content | e] eqn:Hc.
    + rewrite (bind_ok _ _ _ _ _ (get_status_online env s m content w Hm Hc (Hedit _ _))).
      destruct (IH (add_event (Edited m content) w)) as [tr [Htr Hn]].
      exists (Edited m content :: tr). split.
      * rewrite Htr. unfold add_events, add_event. simpl. now rewrite <- app_assoc.
      * simpl. now rewrite Hn.
    + rewrite (bind_ok _ _ _ _ _ (get_status_offline env s m e w Hm Hc (Hedit _ _))).
      match goal with |- context [for_each l _ ?w'] => destruct (IH w') as [tr [Htr Hn]] end.
      eexists (Edited m _ :: Log _ _ :: tr). split.
      * rewrite Htr. unfold add_events, add_event. simpl.
        rewrite <- !app_assoc. reflexivity.
      * simpl. now rewrite Hn.
Qed.

(** X3.  When every server of the registry has its message and the
    messaging service takes every edit, a tick returns without raising
    whatever the status queries give, and edits the message of each server
    once, in the order of the registry. *)
Theorem tick_edits_every_target (env : Env) (w : World) :
  Forall has_message (servers w) ->
  (forall m content, message_edit env m content = None) ->
  exists tr,
    poll_servers env w = (Ok tt, add_events tr w)
    /\ map Some (edited tr) = map message (servers w).
Proof. intros Hm Hedit. now apply for_each_get_status_edits. Qed.

Lemma tick_edits_every_target_witness :
  exists tr,
    poll_servers survival_down (world_of [creative; survival; lobby])
    = (Ok tt, add_events tr (world_of [creative; survival; lobby]))
    /\ map Some (edited tr) = map message [creative; survival; lobby].
Proof.
  apply (tick_edits_every_target survival_down (world_of [creative; survival; lobby])).
  - repeat constructor; discriminate.
  - reflexivity.
Defined.


Lemma bind_raise_at {A B} (m : M A) (k : A -> M B) (w w' : World) (e : exn) :
  m w = (Raise e, w') -> bind m k w = (Raise e, w').
Proof. intros H. unfold bind. now rewrite H. Qed.

(** [get_status] on a server whose message takes no edit: it raises what the
    edit raises, whatever the status is, and does nothing. *)
Lemma get_status_message_gone (env : Env) (self : MCServer) (m : Message) (e' : exn)
    (w : World) :
  message self = Some m ->
  (forall content, message_edit env m content = Some e') ->
  get_status env self w = (Raise e', w).
Proof.
  intros Hm Hedit.
  unfold get_status, try_except, bind, lift, handle_exception, bind, edit, raise.
  rewrite Hm. destruct (get_content env self) as [content | e]; now rewrite !Hedit.
Qed.

(** X5.  The handler of [get_status] is not guarded.  When the message of
    one server takes no edit (it was deleted, say), the tick raises at that
    server, whatever its status is, and the servers after it in the registry
    are not processed in that tick. *)
Theorem tick_stops_at_deleted_message (env : Env) (w w1 : World)
    (pre rest : list MCServer) (self : MCServer) (m : Message) (e' : exn) :
  servers w = (pre ++ self :: rest)%list ->
  for_each pre (get_status env) w = (Ok tt, w1) ->
  message self = Some m ->
  (forall content, message_edit env m content = Some e') ->
  poll_servers env w = (Raise e', w1).
Proof.
  intros Hs Hpre Hm Hedit.
  unfold poll_servers. rewrite Hs, for_each_app, Hpre. simpl.
  now rewrite (bind_raise_at _ _ _ _ _ (get_status_message_gone env self m e' w1 Hm Hedit)).
Qed.

Lemma tick_stops_at_deleted_message_witness :
  poll_servers message_100_deleted (world_of [creative; survival; lobby])
  = (Raise "404 Not Found",
     add_event (Edited message_200
                  ("Creative is **online** with 1 online player." ++ nl ++ nl
                   ++ "Player:" ++ nl ++ "Alice" ++ nl))
       (world_of [creative; survival; lobby])).
Proof.
  exact (tick_stops_at_deleted_message message_100_deleted
           (world_of [creative; survival; lobby]) _
           [creative] [lobby] survival message_100 "404 Not Found"
           eq_refl eq_refl eq_refl (fun _ => eq_refl)).
Defined.

(** X6.  A status with players and no list of their names makes
    [get_content] raise at its loop; so [get_status] shows the server as
    offline, with the text of that [TypeError], and logs it, although the
    status query went through. *)
Theorem hidden_sample_is_shown_offline (env : Env) (self : MCServer) (m : Message)
    (status : JavaStatusResponse) (w : World) :
  message self = Some m ->
  JavaServer_status env (address self) = Ok status ->
  online (players status) <> 0%Z ->
  sample (players status) = None ->
  message_edit env m (name self ++ " is **offline**: " ++ TypeError_not_iterable) = None ->
  get_status env self w
  = (Ok tt,
     add_events
       [Edited m (name self ++ " is **offline**: 'NoneType' object is not iterable");
        Log (now env (S (length (trace w))))
          ("Error looking up server " ++ name self ++ " (" ++ address self
           ++ ") status: 'NoneType' object is not iterable")]
       w).
Proof.
  intros Hm Hst Hn Hsample Hedit.
  rewrite (get_status_offline env self m TypeError_not_iterable w Hm); [| | exact Hedit].
  - unfold add_event, add_events. cbn [servers info_json trace]. now rewrite <- app_assoc.
  - unfold get_content. rewrite Hst, Hsample.
    destruct (online (players status) =? 0)%Z eqn:E; [lia | reflexivity].
Qed.

Lemma hidden_sample_is_shown_offline_witness :
  get_status sample_hidden survival (world_of [survival])
  = (Ok tt,
     add_events
       [Edited message_100 "Survival is **offline**: 'NoneType' object is not iterable";
        Log noon ("Error looking up server Survival (1.2.3.4:25565) status: "
                  ++ "'NoneType' object is not iterable")]
       (world_of [survival])).
Proof.
  refine (hidden_sample_is_shown_offline sample_hidden survival message_100
            {| players := {| online := 3; sample := None |} |} (world_of [survival])
            eq_refl eq_refl _ eq_refl eq_refl).
  discriminate.
Defined.

(** X7.  The [try] of [get_status] covers the edit as well: when the status
    query goes through and the edit of the online text raises [e'], the
    handler runs with [e'], and, its own edit going through, the message
    shows the server as offline with the text of [e']. *)
Theorem refused_edit_is_shown_offline (env : Env) (self : MCServer) (m : Message)
    (content : string) (e' : exn) (w : World) :
  message self = Some m ->
  get_content env self = Ok content ->
  message_edit env m content = Some e' ->
  message_edit env m (name self ++ " is **offline**: " ++ e') = None ->
  get_status env self w
  = (Ok tt,
     add_events
       [Edited m (name self ++ " is **offline**: " ++ e');
        Log (now env (S (length (trace w))))
          ("Error looking up server " ++ name self ++ " (" ++ address self
           ++ ") status: " ++ e')]
       w).
Proof.
  intros Hm Hc Hedit Hoff.
  unfold get_status, try_except, bind, lift. rewrite Hc, Hm.
  unfold edit at 1. rewrite Hedit. unfold raise.
  unfold handle_exception. rewrite Hm. unfold bind, edit. rewrite Hoff.
  unfold emit, print, emit. rewrite length_trace_add_event.
  unfold add_event, add_events. cbn [servers info_json trace]. now rewrite <- app_assoc.
Qed.

Lemma refused_edit_is_shown_offline_witness :
  get_status online_text_refused survival (world_of [survival])
  = (Ok tt,
     add_events
       [Edited message_100 "Survival is **offline**: 503 Service Unavailable";
        Log noon ("Error looking up server Survival (1.2.3.4:25565) status: "
                  ++ "503 Service Unavailable")]
       (world_of [survival])).
Proof.
  exact (refused_edit_is_shown_offline online_text_refused survival message_100
           "Survival is **online** with 0 online players." "503 Service Unavailable"
           (world_of [survival]) eq_refl eq_refl eq_refl eq_refl).
Defined.

(* ================================================================== *)
(** ** [addserver_command] and [write_json_file], further *)

(** X8.  A server cannot be added while its message cannot be made.  When no
    server has the address and the lookup takes it, and the status query
    raises (the server is down), or it goes through and creating the message
    raises, the handler of [make_message] reads [self.message], which is
    still [None]: the command raises that [AttributeError], not the failure
    itself; nothing is added, saved or answered. *)
Theorem add_fails_when_message_cannot_be_made (env : Env) (interaction : Interaction)
    (ip name' : string) (port : Z) (e : exn) (w : World) :
  let address' := ip ++ ":" ++ str_of_int port in
  let new := {| name := name'; address := address'; message := None |} in
  find (fun server => address server =? address') (servers w) = None ->
  JavaServer_lookup env address' = None ->
  (get_content env new = Raise e
   \/ exists content,
        get_content env new = Ok content
        /\ channel_send env (interaction_channel interaction) content = Raise e) ->
  addserver_command env interaction ip name' port w
  = (Raise "'NoneType' object has no attribute 'edit'", w).
Proof.
  intros address' new Hf Hl Hfail.
  rewrite (addserver_command_new env interaction ip name' port w Hf).
  fold address'. rewrite Hl. fold new.
  unfold make_message, try_except, bind, lift, handle_exception, raise.
  cbn [message new].
  destruct Hfail as [Hc | [content [Hc Hsend]]]; rewrite Hc; [reflexivity |].
  unfold send. now rewrite Hsend.
Qed.

Lemma add_fails_when_message_cannot_be_made_witness :
  addserver_command survival_down from_channel_10 "1.2.3.4" "Survival" 25565 empty_world
  = (Raise "'NoneType' object has no attribute 'edit'", empty_world)
  /\ addserver_command send_forbidden from_channel_10 "1.2.3.4" "Survival" 25565 empty_world
     = (Raise "'NoneType' object has no attribute 'edit'", empty_world).
Proof.
  split.
  - refine (add_fails_when_message_cannot_be_made survival_down from_channel_10
              "1.2.3.4" "Survival" 25565 "ConnectionRefused" empty_world
              eq_refl eq_refl _).
    left. reflexivity.
  - refine (add_fails_when_message_cannot_be_made send_forbidden from_channel_10
              "1.2.3.4" "Survival" 25565 "403 Forbidden" empty_world
              eq_refl eq_refl _).
    right. exists "Survival is **online** with 0 online players.". split; reflexivity.
Defined.

(** X9.  An add that goes through.  When no server has the address, the
    lookup takes it, the status renders as [content] and the message is
    created with id [id], on a registry whose servers have their message:
    the message is the first rendering of the status in the channel of the
    command; the server is appended with it; the file becomes the snapshot
    of the registry with the new server; and the command answers
    [__<name> Server Status__]. *)
Theorem add_registers_saves_and_answers (env : Env) (interaction : Interaction)
    (ip name' : string) (port : Z) (content : string) (id : Z) (w : World) :
  let address' := ip ++ ":" ++ str_of_int port in
  let m := {| message_id := id; message_channel := interaction_channel interaction |} in
  let reg :=
    (servers w ++ [{| name := name'; address := address'; message := Some m |}])%list in
  Forall has_message (servers w) ->
  find (fun server => address server =? address') (servers w) = None ->
  JavaServer_lookup env address' = None ->
  get_content env {| name := name'; address := address'; message := None |} = Ok content ->
  channel_send env (interaction_channel interaction) content = Ok id ->
  addserver_command env interaction ip name' port w
  = (Ok tt,
     {| servers := reg;
        info_json := Some (snapshot_of reg);
        trace :=
          (trace w
           ++ [Sent m content;
               Log (now env (S (length (trace w)))) "Successfully wrote info.json";
               Responded ("__" ++ name' ++ " Server Status__") None])%list |}).
Proof.
  intros address' m reg Hm Hf Hl Hc Hsend.
  rewrite (addserver_command_new env interaction ip name' port w Hf).
  fold address'. rewrite Hl.
  unfold make_message, try_except, bind at 1, lift. cbn [message].
  rewrite Hc. unfold bind at 1, send. rewrite Hsend.
  unfold bind at 1, emit, ret. cbn [name address].
  unfold bind at 1. rewrite write_json_file_spec.
  - unfold send_message, emit, add_event, add_events, set_info_json, set_servers.
    cbn [servers info_json trace]. fold m. fold reg.
    rewrite length_app. cbn [length]. rewrite Nat.add_1_r, <- !app_assoc. reflexivity.
  - cbn [servers set_servers add_event]. apply Forall_app. split; [exact Hm |].
    repeat constructor. discriminate.
Qed.

Lemma add_registers_saves_and_answers_witness :
  addserver_command alice_online from_channel_20 "5.6.7.8" "Creative" 25565
    (world_of [survival])
  = (Ok tt,
     {| servers :=
          [survival;
           {| name := "Creative"; address := "5.6.7.8:25565";
              message := Some {| message_id := 100; message_channel := channel_20 |} |}];
        info_json :=
          Some [dict_of survival message_100;
                {| item_name := "Creative"; item_address := "5.6.7.8:25565";
                   item_guild_id := 2; item_channel_id := 20; item_message_id := 100 |}];
        trace :=
          [Sent {| message_id := 100; message_channel := channel_20 |}
             ("Creative is **online** with 1 online player." ++ nl ++ nl
              ++ "Player:" ++ nl ++ "Alice" ++ nl);
           Log noon "Successfully wrote info.json";
           Responded "__Creative Server Status__" None] |}).
Proof.
  refine (add_registers_saves_and_answers alice_online from_channel_20 "5.6.7.8"
            "Creative" 25565
            ("Creative is **online** with 1 online player." ++ nl ++ nl
             ++ "Player:" ++ nl ++ "Alice" ++ nl) 100 (world_of [survival])
            _ eq_refl eq_refl eq_refl eq_refl).
  repeat constructor. discriminate.
Defined.

Lemma server_dicts_of_raises (l : list MCServer) (acc : list Item) :
  (exists s, In s l /\ message s = None) ->
  server_dicts_of l acc = Raise (AttributeError "id").
Proof.
  revert acc. induction l as [| x l IH]; intros acc [s [Hin Hs]]; [destruct Hin |].
  simpl. destruct (message x) as [m |] eqn:Hx; [| reflexivity].
  apply IH. destruct Hin as [-> | Hin]; [congruence | eauto].
Qed.

(** X10.  [write_json_file] replaces the file as a whole: on a registry whose
    servers have their message the file becomes one record per server, in
    the order of the registry, whatever it held before, and the registry
    stays; on a registry with a server that has no message it raises before
    the file is opened, and nothing changes. *)
Theorem write_json_file_replaces_the_file (env : Env) (w : World) :
  (Forall has_message (servers w) ->
   write_json_file env w
   = (Ok tt,
      {| servers := servers w;
         info_json := Some (snapshot_of (servers w));
         trace := (trace w ++ [Log (now env (length (trace w)))
                                 "Successfully wrote info.json"])%list |})
   /\ map item_key (snapshot_of (servers w)) = map key (servers w))
  /\ ((exists s, In s (servers w) /\ message s = None) ->
      write_json_file env w = (Raise "'NoneType' object has no attribute 'id'", w)).
Proof.
  split.
  - intros Hm. rewrite (write_json_file_spec env w Hm).
    split; [reflexivity | now apply snapshot_keys].
  - intros Hex. unfold write_json_file.
    now rewrite (server_dicts_of_raises (servers w) [] Hex).
Qed.

Lemma write_json_file_replaces_the_file_witness :
  info_json (snd (write_json_file alice_online
                    {| servers := [creative];
                       info_json := Some (snapshot_of [survival; lobby]);
                       trace := [] |}))
  = Some (snapshot_of [creative])
  /\ write_json_file alice_online
       (world_of [survival; {| name := "New"; address := "9.9.9.9:1"; message := None |}])
     = (Raise "'NoneType' object has no attribute 'id'",
        world_of [survival; {| name := "New"; address := "9.9.9.9:1"; message := None |}]).
Proof.
  split.
  - refine (f_equal (fun r => info_json (snd r))
              (proj1 (proj1 (write_json_file_replaces_the_file alice_online
                               {| servers := [creative];
                                  info_json := Some (snapshot_of [survival; lobby]);
                                  trace := [] |}) _))).
    repeat constructor. discriminate.
  - refine (proj2 (write_json_file_replaces_the_file alice_online
                     (world_of [survival;
                                {| name := "New"; address := "9.9.9.9:1";
                                   message := None |}])) _).
    eexists. split; [right; left; reflexivity | reflexivity].
Defined.

(* ================================================================== *)
(** ** [read_json_file] and [on_ready], further *)

Lemma loaded_extends (env : Env) (data : list Item) (reg : list MCServer) :
  exists added, loaded env data reg = (reg ++ added)%list.
Proof.
  revert reg. induction data as [| item data IH]; intros reg; simpl.
  - exists []. now rewrite app_nil_r.
  - unfold load_step. destruct (existsb (key_match item) reg); [apply IH |].
    destruct (recoverable env item); [| apply IH].
    destruct (IH (reg ++ [server_of_item item])%list) as [added ->].
    exists (server_of_item item :: added). now rewrite <- app_assoc.
Qed.

(** X11.  On a file that is missing or holds a list of records, each with
    its five keys, [read_json_file] never raises, whatever fails to resolve:
    every step that can fail is inside the [try].  It leaves the file as it
    is, keeps the servers of the registry in place and only appends to them,
    and creates no message. *)
Theorem read_json_file_never_raises (env : Env) (w : World) :
  fst (read_json_file env w) = Ok tt
  /\ info_json (snd (read_json_file env w)) = info_json w
  /\ (exists added, servers (snd (read_json_file env w)) = (servers w ++ added)%list)
  /\ created (trace (snd (read_json_file env w))) = created (trace w).
Proof.
  destruct (info_json w) as [data |] eqn:Hd.
  - destruct (read_json_file_spec env data w Hd) as [tr [-> [_ Hc]]].
    cbn [fst snd add_events set_servers servers info_json trace].
    rewrite created_app, Hc, Hd. repeat split; [apply loaded_extends | lia].
  - unfold read_json_file. rewrite Hd.
    cbn [fst snd print emit add_event servers info_json trace].
    rewrite created_app, Hd. repeat split; [exists []; now rewrite app_nil_r |].
    unfold created. simpl. lia.
Qed.

Lemma existsb_key_match_loaded (env : Env) (data : list Item) (reg : list MCServer)
    (item : Item) :
  existsb (key_match item) reg = true ->
  existsb (key_match item) (loaded env data reg) = true.
Proof.
  intros H. destruct (loaded_extends env data reg) as [added ->].
  now rewrite existsb_app, H.
Qed.

(** After the loop every record of the file is known, or not recoverable. *)
Lemma loaded_settles (env : Env) (data : list Item) (reg : list MCServer) (item : Item) :
  In item data ->
  existsb (key_match item) (loaded env data reg) = true \/ recoverable env item = false.
Proof.
  revert reg. induction data as [| item' data IH]; intros reg Hin; [destruct Hin |].
  simpl. destruct Hin as [-> | Hin]; [| now apply IH].
  unfold load_step. destruct (existsb (key_match item) reg) eqn:Hk.
  - left. now apply existsb_key_match_loaded.
  - destruct (recoverable env item) eqn:Hrec; [| now right].
    left. apply existsb_key_match_loaded. rewrite existsb_app. simpl.
    assert (Hs : key_match item (server_of_item item) = true)
      by now apply key_match_server_of_item.
    rewrite Hs. apply orb_true_r.
Qed.

(** The loop changes nothing when every record is known or not recoverable. *)
Lemma loaded_fixed (env : Env) (data : list Item) (reg : list MCServer) :
  (forall item, In item data ->
     existsb (key_match item) reg = true \/ recoverable env item = false) ->
  loaded env data reg = reg.
Proof.
  induction data as [| item data IH]; intros H; simpl; [reflexivity |].
  unfold load_step. destruct (H item (or_introl eq_refl)) as [-> | Hr].
  - apply IH. intros; apply H; simpl; auto.
  - rewrite Hr. destruct (existsb (key_match item) reg); apply IH; intros; apply H; simpl; auto.
Qed.

Lemma read_json_file_missing (env : Env) (w : World) :
  info_json w = None ->
  read_json_file env w
  = (Ok tt, add_event (Log (now env (length (trace w))) (FILE_PATH ++ " does not exist yet")) w).
Proof. intros Hd. unfold read_json_file. now rewrite Hd. Qed.

(** X12.  Loading is idempotent: a second [read_json_file] in the same world
    outside leaves the registry as the first one made it.  What the first
    load recovered is known to the second, and what did not resolve still
    does not. *)
Theorem read_json_file_twice (env : Env) (w : World) :
  servers (snd (read_json_file env (snd (read_json_file env w))))
  = servers (snd (read_json_file env w)).
Proof.
  destruct (info_json w) as [data |] eqn:Hd.
  - destruct (read_json_file_spec env data w Hd) as [tr [-> _]]. cbn [snd].
    match goal with |- context [read_json_file env ?w1] =>
      destruct (read_json_file_spec env data w1 Hd) as [tr' [-> _]] end.
    cbn [snd add_events set_servers servers].
    apply loaded_fixed. intros item Hin. now apply loaded_settles.
  - rewrite (read_json_file_missing env w Hd). cbn [snd].
    now rewrite read_json_file_missing.
Qed.

Lemma loaded_provenance (env : Env) (data : list Item) (reg : list MCServer) (s : MCServer) :
  In s (loaded env data reg) ->
  In s reg
  \/ exists item, In item data /\ s = server_of_item item /\ recoverable env item = true.
Proof.
  revert reg. induction data as [| item data IH]; intros reg Hin; simpl in Hin; [now left |].
  destruct (IH _ Hin) as [Hreg | [item' [Hi [Hs Hr]]]].
  - unfold load_step in Hreg. destruct (existsb (key_match item) reg); [now left |].
    destruct (recoverable env item) eqn:Hrec; [| now left].
    apply in_app_or in Hreg as [Hreg | [<- | []]]; [now left |].
    right. exists item. repeat split; simpl; auto.
  - right. exists item'. repeat split; simpl; auto.
Qed.

(** X13.  Recovery invents no target: every server of the registry after
    [read_json_file] was in the registry before, or is the server of a record
    of the file whose guild, channel and message resolve, with the name, the
    address and the ids of that record. *)
Theorem recovered_servers_come_from_the_file (env : Env) (w : World) (s : MCServer) :
  In s (servers (snd (read_json_file env w))) ->
  In s (servers w)
  \/ exists data item,
       info_json w = Some data /\ In item data
       /\ s = server_of_item item /\ resolves env item = true.
Proof.
  destruct (info_json w) as [data |] eqn:Hd.
  - destruct (read_json_file_spec env data w Hd) as [tr [-> _]].
    cbn [snd add_events set_servers servers]. intros Hin.
    destruct (loaded_provenance env data (servers w) s Hin) as [H | [item [Hi [Hs Hr]]]];
      [now left |].
    right. exists data, item. repeat split; auto.
    unfold recoverable in Hr. now apply andb_prop in Hr.
  - unfold read_json_file. rewrite Hd. cbn [snd print emit add_event servers]. now left.
Qed.

Lemma recovered_servers_come_from_the_file_witness :
  In survival (servers (world_with_file (snapshot_of [survival; creative])))
  \/ exists data item,
       info_json (world_with_file (snapshot_of [survival; creative])) = Some data
       /\ In item data
       /\ survival = server_of_item item /\ resolves message_200_deleted item = true.
Proof.
  apply (recovered_servers_come_from_the_file message_200_deleted
           (world_with_file (snapshot_of [survival; creative])) survival).
  left. reflexivity.
Defined.

Lemma key_match_dict_of (s : MCServer) (m : Message) : key_match (dict_of s m) s = true.
Proof. unfold key_match, dict_of. simpl. now rewrite !String.eqb_refl. Qed.

Lemma loaded_snapshot_of_known (env : Env) (l reg : list MCServer) :
  Forall has_message l -> incl l reg ->
  loaded env (snapshot_of l) reg = reg /\ dropped env (snapshot_of l) reg = 0.
Proof.
  induction 1 as [| s l Hs Hl IH]; intros Hincl; simpl; [now split |].
  destruct (message s) as [m |] eqn:Hm; [| now elim Hs].
  assert (Hk : existsb (key_match (dict_of s m)) reg = true).
  { apply existsb_exists. exists s. split; [apply Hincl; now left | apply key_match_dict_of]. }
  simpl. unfold load_step. rewrite Hk. simpl.
  apply IH. intros x Hx. apply Hincl. now right.
Qed.

(** X14.  Loading the file that was just saved into the registry it was
    saved from changes nothing: every record is the record of a server of the
    registry, so it is skipped, without any resolution and without a
    warning. *)
Theorem reload_of_saved_registry_adds_nothing (env_save env : Env) (w : World) :
  Forall has_message (servers w) ->
  let saved := snd (write_json_file env_save w) in
  fst (read_json_file env saved) = Ok tt
  /\ servers (snd (read_json_file env saved)) = servers w
  /\ warnings (trace (snd (read_json_file env saved))) = warnings (trace w).
Proof.
  intros Hm saved. subst saved. rewrite (write_json_file_spec env_save w Hm). cbn [snd].
  match goal with |- context [read_json_file env ?w1] =>
    destruct (read_json_file_spec env (snapshot_of (servers w)) w1 eq_refl)
      as [tr [-> [Hw _]]] end.
  cbn [fst snd add_events set_servers set_info_json servers trace] in *.
  destruct (loaded_snapshot_of_known env (servers w) (servers w) Hm (incl_refl _))
    as [Hl Hd].
  rewrite Hl. rewrite Hd in Hw. rewrite !warnings_app, Hw.
  unfold warnings at 2. simpl. repeat split; lia.
Qed.

Lemma reload_of_saved_registry_adds_nothing_witness :
  servers (snd (read_json_file message_200_deleted
                  (snd (write_json_file alice_online (world_of [survival; creative])))))
  = [survival; creative].
Proof.
  refine (proj1 (proj2 (reload_of_saved_registry_adds_nothing alice_online
                          message_200_deleted (world_of [survival; creative]) _))).
  repeat constructor; discriminate.
Defined.

Lemma snapshot_of_servers_of_items (data : list Item) :
  snapshot_of (map server_of_item data) = data.
Proof.
  induction data as [| item data IH]; simpl; [reflexivity |].
  rewrite IH. now destruct item.
Qed.

(** X15.  The other round trip.  When the registry is empty and every record
    of the file is recoverable, the records having pairwise distinct (name,
    address), loading and then saving writes back the file as it was: the
    same records with the same ids, in the same order. *)
Theorem save_after_full_recovery_rewrites_the_file (env env_save : Env)
    (data : list Item) (w : World) :
  servers w = [] ->
  info_json w = Some data ->
  NoDup (map item_key data) ->
  (forall item, In item data -> recoverable env item = true) ->
  let loaded_world := snd (read_json_file env w) in
  servers loaded_world = map server_of_item data
  /\ fst (write_json_file env_save loaded_world) = Ok tt
  /\ info_json (snd (write_json_file env_save loaded_world)) = Some data.
Proof.
  intros Hs Hd Hnd Hall lw. subst lw.
  destruct (read_json_file_spec env data w Hd) as [tr [-> _]]. rewrite Hs.
  destruct (loaded_fresh env data [] Hnd (fun _ _ => eq_refl)) as [Hl _].
  rewrite Hl. cbn [app snd].
  assert (Hf : filter (recoverable env) data = data).
  { clear -Hall. induction data as [| item data IH]; simpl; [reflexivity |].
    rewrite (Hall item) by (simpl; auto). rewrite IH; [reflexivity |].
    intros; apply Hall; simpl; auto. }
  rewrite Hf. split; [reflexivity |].
  rewrite write_json_file_spec.
  - cbn [fst snd add_events set_servers set_info_json servers info_json].
    now rewrite snapshot_of_servers_of_items.
  - cbn [add_events set_servers servers]. apply Forall_forall.
    intros s Hin. apply in_map_iff in Hin as [item [<- _]]. discriminate.
Qed.

Lemma save_after_full_recovery_rewrites_the_file_witness :
  info_json (snd (write_json_file alice_online
                    (snd (read_json_file alice_online
                            (world_with_file (snapshot_of [survival; creative]))))))
  = Some (snapshot_of [survival; creative]).
Proof.
  refine (proj2 (proj2 (save_after_full_recovery_rewrites_the_file alice_online
                          alice_online (snapshot_of [survival; creative])
                          (world_with_file (snapshot_of [survival; creative]))
                          eq_refl eq_refl _ _))).
  - exact (proj1 (tracked_snapshot _ _ tracked_two_servers)).
  - intros item [<- | [<- | []]]; reflexivity.
Defined.

(** The registry and the file after [on_ready], which never raises. *)
Lemma on_ready_spec (env : Env) (w : World) :
  fst (on_ready env w) = Ok tt
  /\ info_json (snd (on_ready env w)) = info_json w
  /\ servers (snd (on_ready env w))
     = match servers w, info_json w with
       | [], Some data => loaded env data []
       | l, _ => l
       end.
Proof.
  unfold on_ready, bind. destruct (servers w) as [| s l] eqn:Hl.
  - destruct (info_json w) as [data |] eqn:Hd.
    + destruct (read_json_file_spec env data w Hd) as [tr [-> _]].
      cbn [fst snd print emit add_event add_events set_servers servers info_json].
      now rewrite Hd, Hl.
    + unfold read_json_file. rewrite Hd.
      cbn [fst snd print emit add_event servers info_json]. now rewrite Hd, Hl.
  - unfold ret. cbn [fst snd print emit add_event servers info_json]. now rewrite Hl.
Qed.

(** X16.  On a file that is missing or holds a list of records, each with
    its five keys, [on_ready] never raises; and it never changes the file.
    It reads the file only into an empty registry: a registry that holds a
    server is left as it is.  And a second [on_ready] (the client
    reconnects) in the same world outside leaves the registry as the first
    one made it. *)
Theorem on_ready_loads_once (env : Env) (w : World) :
  fst (on_ready env w) = Ok tt
  /\ info_json (snd (on_ready env w)) = info_json w
  /\ (servers w <> [] -> servers (snd (on_ready env w)) = servers w)
  /\ servers (snd (on_ready env (snd (on_ready env w)))) = servers (snd (on_ready env w)).
Proof.
  destruct (on_ready_spec env w) as [Hr [Hf Hs]].
  destruct (on_ready_spec env (snd (on_ready env w))) as [_ [_ Hs2]].
  repeat split; auto.
  - intros Hne. rewrite Hs. destruct (servers w); [now elim Hne | reflexivity].
  - rewrite Hs2, Hf. clear Hs2 Hf Hr.
    remember (servers (snd (on_ready env w))) as reg eqn:E. clear E.
    destruct reg as [| s l]; [| reflexivity].
    destruct (info_json w) as [data |]; [| reflexivity].
    destruct (servers w); [now symmetry | discriminate].
Qed.

Lemma on_ready_loads_once_witness :
  servers (snd (on_ready message_200_deleted (world_of [creative]))) = [creative].
Proof.
  refine (proj1 (proj2 (proj2 (on_ready_loads_once message_200_deleted
                                 (world_of [creative])))) _).
  discriminate.
Defined.

(* ================================================================== *)
(** ** [removeserver_command], further *)

Lemma first_removable (ip : string) (g : Z) (l : list MCServer) :
  (exists s, In s l /\ removable ip g s = true) ->
  exists pre s post,
    l = (pre ++ s :: post)%list /\ removable ip g s = true
    /\ Forall (fun x => removable ip g x = false) pre.
Proof.
  induction l as [| x l IH]; intros [s [Hin Hs]]; [destruct Hin |].
  destruct (removable ip g x) eqn:Hx.
  - exists [], x, l. repeat split; auto.
  - destruct IH as [pre [s' [post [-> [Hs' Hpre]]]]].
    + destruct Hin as [-> | Hin]; [congruence | eauto].
    + exists (x :: pre), s', post. repeat split; auto.
Qed.

Lemma find_removable_at_first (ip : string) (g : Z) (pre post : list MCServer)
    (s : MCServer) (i : nat) :
  Forall has_message pre ->
  Forall (fun x => removable ip g x = false) pre ->
  removable ip g s = true ->
  find_removable ip g (pre ++ s :: post) i = Ok (Some (i + length pre)).
Proof.
  intros Hm Hpre Hs. revert i.
  induction pre as [| x pre IH]; intros i; simpl.
  - unfold removable, in_guild, message_guild in Hs. apply andb_prop in Hs as [Ha Hg].
    rewrite Ha. destruct (message s); [| discriminate]. rewrite Hg. f_equal. f_equal. lia.
  - inversion Hm as [| ? ? Hx Hm']; inversion Hpre as [| ? ? Hrx Hpre']; subst.
    rewrite IH by assumption.
    replace (S i + length pre) with (i + S (length pre)) by lia.
    unfold removable, in_guild, message_guild in Hrx.
    destruct (str_in ip (address x)); [| reflexivity].
    destruct (message x) as [m |] eqn:Hmx; [| now elim Hx].
    simpl in Hrx. now rewrite Hrx.
Qed.

(** X17.  On a registry whose servers have their message, when some server
    is in the guild of the call at an address that contains the fragment,
    [removeserver_command] takes out the first such server in the order of
    the registry, and only that one, also when several match; it leaves the
    file as it is and answers [Removed server!]. *)
Theorem remove_takes_first_match (env : Env) (interaction : Interaction) (ip : string)
    (w : World) :
  let g := guild_id (interaction_guild interaction) in
  Forall has_message (servers w) ->
  (exists s, In s (servers w) /\ removable ip g s = true) ->
  exists pre s post,
    servers w = (pre ++ s :: post)%list
    /\ removable ip g s = true
    /\ Forall (fun x => removable ip g x = false) pre
    /\ removeserver_command env interaction ip w
       = (Ok tt,
          {| servers := (pre ++ post)%list;
             info_json := info_json w;
             trace := (trace w ++ [Responded "Removed server!" None])%list |}).
Proof.
  intros g Hm Hex.
  destruct (first_removable ip g (servers w) Hex) as [pre [s [post [Hl [Hs Hpre]]]]].
  exists pre, s, post. repeat split; auto.
  unfold removeserver_command. fold g. rewrite Hl.
  rewrite (find_removable_at_first ip g pre post s 0); auto.
  - unfold bind, send_message, emit, add_event, set_servers.
    cbn [servers info_json trace plus]. rewrite Hl. now rewrite remove_at_middle.
  - rewrite Hl in Hm. now apply Forall_app in Hm.
Qed.

Lemma remove_takes_first_match_witness :
  exists pre s post,
    servers (world_of [creative; survival; lobby]) = (pre ++ s :: post)%list
    /\ removable "1.2.3.4" 1 s = true
    /\ Forall (fun x => removable "1.2.3.4" 1 x = false) pre
    /\ removeserver_command alice_online from_channel_11 "1.2.3.4"
         (world_of [creative; survival; lobby])
       = (Ok tt,
          {| servers := (pre ++ post)%list;
             info_json := info_json (world_of [creative; survival; lobby]);
             trace := (trace (world_of [creative; survival; lobby])
                       ++ [Responded "Removed server!" None])%list |}).
Proof.
  apply (remove_takes_first_match alice_online from_channel_11 "1.2.3.4"
           (world_of [creative; survival; lobby])).
  - repeat constructor; discriminate.
  - exists lobby. split; [right; right; left; reflexivity | reflexivity].
Defined.

(* ================================================================== *)
(** ** What holds in every world the program gets to *)

(** The history [after_some_history] is one of handlers run one after
    another: three adds, a tick, a remove. *)
Lemma reachable_after_some_history : reachable (fun _ => None) after_some_history.
Proof.
  unfold after_some_history, after_three_adds.
  apply reach_removeserver_command, reach_poll_servers.
  repeat (apply reach_addserver_command; [| intros a; reflexivity]).
  apply reach_start.
Defined.

(** X18.  In every world the program gets to by handlers run one after
    another ([on_ready], ticks, adds, removes, each run to its end before the
    next starts, and restarts between them), with writes of the file that go
    through: every server of the registry has its
    message, no two servers have both the name and the address in common, and
    the file, when there is one, holds records with pairwise distinct (name,
    address). *)
Theorem reachable_worlds_are_tracked (lookup : string -> option exn) (w : World) :
  reachable lookup w ->
  tracked lookup (servers w) /\ snapshot_ok lookup (info_json w).
Proof. apply reachable_invariant. Qed.

Lemma reachable_worlds_are_tracked_witness :
  servers after_some_history = [survival; lobby]
  /\ info_json after_some_history = Some (snapshot_of [survival; creative; lobby])
  /\ tracked (fun _ => None) (servers after_some_history)
  /\ snapshot_ok (fun _ => None) (info_json after_some_history).
Proof.
  split; [reflexivity |]. split; [reflexivity |].
  exact (reachable_worlds_are_tracked (fun _ => None) after_some_history
           reachable_after_some_history).
Defined.

(** Dropping elements keeps their images distinct. *)
Lemma filter_keeps_distinct {A B} (image : A -> B) (keep : A -> bool) (xs : list A)
    (Hxs : NoDup (map image xs)) :
  NoDup (map image (filter keep xs)).
Proof.
  induction xs as [| x xs IH]; simpl; [constructor |].
  inversion Hxs as [| b bs Hb Hnd]; subst.
  destruct (keep x); simpl; [| now apply IH].
  constructor; [| now apply IH].
  intros Hin. apply Hb. apply in_map_iff in Hin as [y [Hy Hin]].
  apply filter_In in Hin as [Hin _]. rewrite <- Hy. now apply in_map.
Qed.

Lemma NoDup_map_finer {A B C} (f : A -> B) (g : A -> C) (l : list A) :
  (forall x y, g x = g y -> f x = f y) -> NoDup (map f l) -> NoDup (map g l).
Proof.
  intros Hfg. induction l as [| a l IH]; simpl; intros H; [constructor |].
  inversion H as [| b bs Hb Hnd]; subst. constructor; [| now apply IH].
  intros Hin. apply Hb. apply in_map_iff in Hin as [x [Hx Hin]].
  rewrite <- (Hfg _ _ Hx). now apply in_map.
Qed.

Lemma snapshot_addresses (l : list MCServer) :
  Forall has_message l -> map item_address (snapshot_of l) = map address l.
Proof.
  induction 1 as [| s l Hs Hl IH]; simpl; [reflexivity |].
  destruct (message s) as [m |] eqn:Hm; [| now elim Hs].
  simpl. now rewrite IH.
Qed.

(** The registry and the file after [addserver_command] on a registry whose
    servers have their message: both as before, or one more server, with its
    message, and the file the snapshot of the registry. *)
Lemma addserver_command_outcome (env : Env) (interaction : Interaction)
    (ip name' : string) (port : Z) (w : World) :
  let w' := snd (addserver_command env interaction ip name' port w) in
  Forall has_message (servers w) ->
  (servers w' = servers w /\ info_json w' = info_json w)
  \/ (exists s, servers w' = (servers w ++ [s])%list /\ has_message s
                /\ info_json w' = Some (snapshot_of (servers w'))).
Proof.
  intros w' Hm. subst w'.
  destruct (find (fun server => address server =? ip ++ ":" ++ str_of_int port) (servers w))
    as [s |] eqn:Hf.
  - left. unfold addserver_command. rewrite Hf. destruct (message s); split; reflexivity.
  - rewrite (addserver_command_new env interaction ip name' port w Hf).
    destruct (JavaServer_lookup env _); [left; split; reflexivity |].
    destruct (make_message_new env name' (ip ++ ":" ++ str_of_int port)
                (interaction_channel interaction) w)
      as [[content [id Hmk]] | Hmk]; cbv zeta in Hmk; rewrite Hmk;
      [| left; split; reflexivity].
    right. eexists. unfold bind. rewrite write_json_file_spec.
    + cbn [snd servers info_json add_events add_event set_servers set_info_json
             send_message emit].
      split; [reflexivity |]. split; [discriminate | reflexivity].
    + cbn [servers set_servers add_event]. apply Forall_app. split; [exact Hm |].
      repeat constructor. discriminate.
Qed.

Lemma reachable_addresses (lookup : string -> option exn) (w : World) :
  reachable lookup w ->
  NoDup (map address (servers w))
  /\ Forall has_message (servers w)
  /\ file_addresses_distinct (info_json w).
Proof.
  induction 1 as [| env w Hr [Hnd [Hm Hf]] Ha | env w Hr [Hnd [Hm Hf]]
                  | env interaction ip name' port w Hr [Hnd [Hm Hf]] Ha
                  | env interaction ip w Hr [Hnd [Hm Hf]] | w Hr [Hnd [Hm Hf]]].
  - repeat split; constructor.
  - destruct (on_ready_spec env w) as [_ [-> ->]].
    destruct (servers w) as [| s l]; [| now repeat split].
    destruct (info_json w) as [data |]; [| now repeat split].
    assert (Hk : NoDup (map item_key data)).
    { apply (NoDup_map_finer item_address item_key); [| exact Hf].
      intros x y Hxy. unfold item_key in Hxy. now injection Hxy. }
    destruct (loaded_fresh env data [] Hk (fun _ _ => eq_refl)) as [-> _].
    cbn [app]. repeat split; [| | exact Hf].
    + rewrite map_map. cbn [server_of_item address].
      now apply (filter_keeps_distinct item_address).
    + apply Forall_forall. intros s Hin. apply in_map_iff in Hin as [item [<- _]].
      discriminate.
  - destruct (poll_servers_keeps_state env w) as [-> ->]. now repeat split.
  - destruct (addserver_command_invariant env interaction ip name' port w (conj Hnd Hm))
      as [Hnd' Hm'].
    repeat split; [exact Hnd' | exact Hm' |].
    destruct (addserver_command_outcome env interaction ip name' port w Hm)
      as [[_ ->] | [s [_ [_ ->]]]]; [exact Hf |].
    cbn [file_addresses_distinct]. now rewrite snapshot_addresses.
  - rewrite removeserver_command_info_json.
    destruct (removeserver_command_cases env interaction ip w)
      as [[pre [s [post [Hl [_ [_ ->]]]]]] | [[response ->] | [e ->]]];
      try (now repeat split).
    cbn [snd servers add_event set_servers]. rewrite Hl in Hnd, Hm.
    repeat split; [| | exact Hf].
    + rewrite map_app in *. simpl in Hnd. now apply NoDup_remove_1 in Hnd.
    + apply Forall_app in Hm as [Hm1 Hm2]. inversion Hm2; subst.
      apply Forall_app. now split.
  - repeat split; [constructor | constructor | exact Hf].
Qed.

(** X19.  In every world the program gets to by handlers run one after
    another, with writes of the file that go through, no two servers of the
    registry have the same address, and no two records of the file have: the
    uniqueness that [addserver_command] checks survives removes, ticks,
    restarts and the recovery of [on_ready].  (It does not survive two adds
    that overlap: [overlapping_adds_track_an_address_twice].) *)
Theorem reachable_addresses_are_distinct (lookup : string -> option exn) (w : World) :
  reachable lookup w ->
  NoDup (map address (servers w)) /\ file_addresses_distinct (info_json w).
Proof.
  intros Hr. destruct (reachable_addresses lookup w Hr) as [Hnd [_ Hf]]. now split.
Qed.

Lemma reachable_addresses_are_distinct_witness :
  map address (servers (snd (on_ready message_200_deleted (restart after_some_history))))
  = ["1.2.3.4:25565"; "1.2.3.4:25566"]
  /\ NoDup (map address
              (servers (snd (on_ready message_200_deleted (restart after_some_history)))))
  /\ file_addresses_distinct
       (info_json (snd (on_ready message_200_deleted (restart after_some_history)))).
Proof.
  split; [reflexivity |].
  refine (reachable_addresses_are_distinct (fun _ => None) _ _).
  apply reach_on_ready; [| intros a; reflexivity].
  apply reach_restart, reachable_after_some_history.
Defined.

Lemma snapshot_member (l : list MCServer) (s : MCServer) (m : Message) :
  In s l -> message s = Some m -> In (dict_of s m) (snapshot_of l).
Proof.
  induction l as [| x l IH]; simpl; intros Hin Hs; [destruct Hin |].
  destruct Hin as [-> | Hin].
  - rewrite Hs. now left.
  - destruct (message x); [right |]; now apply IH.
Qed.

(** X20.  In every world the program gets to by handlers run one after
    another, with writes of the file that go through, every server of the
    registry has its record in the file, with its name, its address and the
    ids of its message: what is tracked is saved.  (The converse fails: a
    removed server keeps its record.) *)
Theorem tracked_servers_are_saved (lookup : string -> option exn) (w : World)
    (s : MCServer) :
  reachable lookup w ->
  In s (servers w) ->
  exists m data,
    message s = Some m /\ info_json w = Some data /\ In (dict_of s m) data.
Proof.
  intros Hr. revert s.
  induction Hr as [| env w Hr IH Ha | env w Hr IH
                  | env interaction ip name' port w Hr IH Ha
                  | env interaction ip w Hr IH | w Hr IH]; intros s Hin.
  - destruct Hin.
  - destruct (on_ready_spec env w) as [_ [Hf Hs]]. rewrite Hf. rewrite Hs in Hin.
    destruct (servers w) as [| x l]; [| now apply IH].
    destruct (info_json w) as [data |]; [| destruct Hin].
    destruct (loaded_provenance env data [] s Hin) as [[] | [item [Hi [-> _]]]].
    eexists; exists data. split; [reflexivity |]. split; [reflexivity |].
    now destruct item.
  - destruct (poll_servers_keeps_state env w) as [Hs Hf]. rewrite Hf. rewrite Hs in Hin.
    now apply IH.
  - destruct (reachable_addresses lookup w Hr) as [_ [Hm _]].
    pose proof (addserver_command_invariant env interaction ip name' port w
                  (conj (proj1 (reachable_addresses lookup w Hr)) Hm)) as [_ Hm'].
    destruct (addserver_command_outcome env interaction ip name' port w Hm)
      as [[Hs Hf] | [x [_ [_ Hf]]]].
    + rewrite Hf. rewrite Hs in Hin. now apply IH.
    + rewrite Hf. rewrite Forall_forall in Hm'.
      destruct (message s) as [m |] eqn:Hmsg; [| now elim (Hm' s Hin)].
      exists m. eexists. split; [reflexivity |]. split; [reflexivity |].
      now apply snapshot_member.
  - rewrite removeserver_command_info_json.
    destruct (removeserver_command_cases env interaction ip w)
      as [[pre [x [post [Hl [_ [_ Hres]]]]]] | [[response Hres] | [e Hres]]];
      rewrite Hres in Hin; try (now apply IH).
    cbn [snd servers add_event set_servers] in Hin. apply IH. rewrite Hl.
    apply in_app_or in Hin as [Hin | Hin]; apply in_or_app; [now left | right; now right].
  - destruct Hin.
Qed.

Lemma tracked_servers_are_saved_witness :
  exists m data,
    message lobby = Some m
    /\ info_json after_some_history = Some data
    /\ In (dict_of lobby m) data.
Proof.
  apply (tracked_servers_are_saved (fun _ => None) after_some_history lobby
           reachable_after_some_history).
  right. left. reflexivity.
Defined.

(** X21.  After any history of handlers run one after another, with writes
    of the file that went through in full, a restart recovers exactly the
    records of the file whose guild, channel and message resolve, in the
    order of the file: [on_ready] in the restarted process does not raise
    and makes the registry of them. *)
Theorem restart_recovers_resolving_records (lookup : string -> option exn) (env : Env)
    (w : World) (data : list Item) :
  reachable lookup w ->
  agrees env lookup ->
  info_json w = Some data ->
  fst (on_ready env (restart w)) = Ok tt
  /\ servers (snd (on_ready env (restart w)))
     = map server_of_item (filter (resolves env) data).
Proof.
  intros Hr Ha Hd.
  destruct (on_ready_spec env (restart w)) as [Hok [_ Hs]].
  split; [exact Hok |]. rewrite Hs. cbn [restart set_servers servers info_json].
  rewrite Hd.
  destruct (reachable_invariant lookup w Hr) as [_ Hsnap]. rewrite Hd in Hsnap.
  destruct Hsnap as [Hk Hl].
  destruct (loaded_fresh env data [] Hk (fun _ _ => eq_refl)) as [-> _].
  cbn [app]. rewrite (recoverable_resolves env data); [reflexivity |].
  intros item Hin. rewrite Ha. now apply Hl.
Qed.

Lemma restart_recovers_resolving_records_witness :
  info_json after_some_history = Some (snapshot_of [survival; creative; lobby])
  /\ filter (resolves message_200_deleted) (snapshot_of [survival; creative; lobby])
     = snapshot_of [survival; lobby]
  /\ servers (snd (on_ready message_200_deleted (restart after_some_history)))
     = [survival; lobby].
Proof.
  split; [reflexivity |]. split; [reflexivity |].
  exact (proj2 (restart_recovers_resolving_records (fun _ => None) message_200_deleted
                  after_some_history (snapshot_of [survival; creative; lobby])
                  reachable_after_some_history (fun _ => eq_refl) eq_refl)).
Defined.

(* ================================================================== *)
(** ** Two adds that overlap *)

(** Run without another handler in between, the two parts are
    [addserver_command]. *)
Lemma addserver_command_in_two_parts (env : Env) (interaction : Interaction)
    (ip name' : string) (port : Z) (w : World) :
  addserver_command env interaction ip name' port w
  = (pending <- addserver_before_send env interaction ip name' port ;;
     match pending with
     | None => ret tt
     | Some p => addserver_after_send env interaction p
     end) w.
Proof.
  unfold addserver_command, addserver_before_send, addserver_after_send, make_message,
    MCServer_init, try_except, bind, lift, ret, handle_exception, raise.
  cbv beta.
  destruct (find _ (servers w)) as [s |]; [destruct (message s); reflexivity |].
  destruct (JavaServer_lookup env _); [reflexivity |]. cbn [message name address].
  destruct (get_content env _); reflexivity.
Qed.

Lemma addserver_before_send_new (env : Env) (interaction : Interaction)
    (ip name' : string) (port : Z) (content : string) (w : World) :
  let address' := ip ++ ":" ++ str_of_int port in
  let new := {| name := name'; address := address'; message := None |} in
  find (fun server => address server =? address') (servers w) = None ->
  JavaServer_lookup env address' = None ->
  get_content env new = Ok content ->
  addserver_before_send env interaction ip name' port w = (Ok (Some (new, content)), w).
Proof.
  intros address' new Hf Hl Hc. unfold addserver_before_send. fold address'.
  rewrite Hf. unfold bind, MCServer_init. rewrite Hl. unfold ret. fold new.
  now rewrite Hc.
Qed.

Lemma addserver_after_send_created (env : Env) (interaction : Interaction)
    (self : MCServer) (content : string) (id : Z) (w : World) :
  let m := {| message_id := id; message_channel := interaction_channel interaction |} in
  let server := {| name := name self; address := address self; message := Some m |} in
  Forall has_message (servers w) ->
  channel_send env (interaction_channel interaction) content = Ok id ->
  addserver_after_send env interaction (self, content) w
  = (Ok tt,
     {| servers := (servers w ++ [server])%list;
        info_json := Some (snapshot_of (servers w ++ [server]));
        trace :=
          (trace w
           ++ [Sent m content;
               Log (now env (S (length (trace w)))) "Successfully wrote info.json";
               Responded ("__" ++ name self ++ " Server Status__") None])%list |}).
Proof.
  intros m server Hm Hsend.
  unfold addserver_after_send, try_except, bind, send. rewrite Hsend.
  unfold bind, emit, ret. cbv beta iota. fold m. fold server.
  rewrite write_json_file_spec.
  - unfold send_message, emit, add_event, add_events, set_info_json, set_servers.
    cbn [servers info_json trace name].
    rewrite length_app. cbn [length]. rewrite Nat.add_1_r, <- !app_assoc. reflexivity.
  - cbn [servers set_servers add_event]. apply Forall_app. split; [exact Hm |].
    repeat constructor. discriminate.
Qed.

(** X23.  The duplicate check of [addserver_command] and its append are on
    the two sides of the [await] of [channel.send].  When a second add of
    the same address starts while the first one waits there, both pass the
    check and both append: after the two the registry, and the file, hold
    the address twice. *)
Theorem overlapping_adds_track_an_address_twice (env1 env2 : Env)
    (interaction1 interaction2 : Interaction) (ip name1 name2 : string) (port : Z)
    (content1 content2 : string) (id1 id2 : Z) (w : World) :
  let address' := ip ++ ":" ++ str_of_int port in
  let new1 := {| name := name1; address := address'; message := None |} in
  let new2 := {| name := name2; address := address'; message := None |} in
  let server1 :=
    {| name := name1; address := address';
       message := Some {| message_id := id1;
                          message_channel := interaction_channel interaction1 |} |} in
  let server2 :=
    {| name := name2; address := address';
       message := Some {| message_id := id2;
                          message_channel := interaction_channel interaction2 |} |} in
  Forall has_message (servers w) ->
  find (fun server => address server =? address') (servers w) = None ->
  JavaServer_lookup env1 address' = None ->
  JavaServer_lookup env2 address' = None ->
  get_content env1 new1 = Ok content1 ->
  get_content env2 new2 = Ok content2 ->
  channel_send env1 (interaction_channel interaction1) content1 = Ok id1 ->
  channel_send env2 (interaction_channel interaction2) content2 = Ok id2 ->
  let w1 := snd (addserver_after_send env1 interaction1 (new1, content1) w) in
  let w2 := snd (addserver_after_send env2 interaction2 (new2, content2) w1) in
  addserver_before_send env1 interaction1 ip name1 port w = (Ok (Some (new1, content1)), w)
  /\ addserver_before_send env2 interaction2 ip name2 port w
     = (Ok (Some (new2, content2)), w)
  /\ fst (addserver_after_send env1 interaction1 (new1, content1) w) = Ok tt
  /\ fst (addserver_after_send env2 interaction2 (new2, content2) w1) = Ok tt
  /\ servers w2 = (servers w ++ [server1; server2])%list
  /\ info_json w2 = Some (snapshot_of (servers w2))
  /\ ~ NoDup (map address (servers w2)).
Proof.
  intros address' new1 new2 server1 server2 Hm Hf Hl1 Hl2 Hc1 Hc2 Hs1 Hs2 w1 w2.
  pose proof (addserver_after_send_created env1 interaction1 new1 content1 id1 w Hm Hs1)
    as H1.
  cbv zeta in H1. cbn [name address new1] in H1. fold server1 in H1.
  assert (Hreg1 : servers w1 = (servers w ++ [server1])%list)
    by (unfold w1; now rewrite H1).
  assert (Hok1 : fst (addserver_after_send env1 interaction1 (new1, content1) w) = Ok tt)
    by now rewrite H1.
  assert (Hm1 : Forall has_message (servers w1)).
  { rewrite Hreg1. apply Forall_app. split; [exact Hm |]. repeat constructor. discriminate. }
  pose proof (addserver_after_send_created env2 interaction2 new2 content2 id2 w1 Hm1 Hs2)
    as H2.
  cbv zeta in H2. cbn [name address new2] in H2. fold server2 in H2.
  assert (Hreg2 : servers w2 = (servers w1 ++ [server2])%list)
    by (unfold w2; now rewrite H2).
  assert (Hfile2 : info_json w2 = Some (snapshot_of (servers w1 ++ [server2])))
    by (unfold w2; now rewrite H2).
  assert (Hok2 : fst (addserver_after_send env2 interaction2 (new2, content2) w1) = Ok tt)
    by now rewrite H2.
  assert (Hreg : servers w2 = (servers w ++ [server1; server2])%list)
    by (rewrite Hreg2, Hreg1, <- app_assoc; reflexivity).
  split; [now apply addserver_before_send_new |].
  split; [now apply addserver_before_send_new |].
  split; [exact Hok1 |]. split; [exact Hok2 |]. split; [exact Hreg |].
  split; [now rewrite Hfile2, Hreg2 |].
  rewrite Hreg, map_app. intros Hnd. apply NoDup_app_remove_l in Hnd.
  inversion Hnd as [| a l Ha _]; subst. apply Ha. now left.
Qed.

Lemma overlapping_adds_track_an_address_twice_witness :
  map address
    (servers
       (snd (addserver_after_send alice_online from_channel_20
               ({| name := "Hardcore"; address := "1.2.3.4:25565"; message := None |},
                "Hardcore is **online** with 1 online player." ++ nl ++ nl
                ++ "Player:" ++ nl ++ "Alice" ++ nl)
               (snd (addserver_after_send alice_online from_channel_10
                       ({| name := "Survival"; address := "1.2.3.4:25565";
                           message := None |},
                        "Survival is **online** with 1 online player." ++ nl ++ nl
                        ++ "Player:" ++ nl ++ "Alice" ++ nl)
                       empty_world)))))
  = ["1.2.3.4:25565"; "1.2.3.4:25565"].
Proof.
  pose proof (overlapping_adds_track_an_address_twice alice_online alice_online
                from_channel_10 from_channel_20 "1.2.3.4" "Survival" "Hardcore" 25565
                ("Survival is **online** with 1 online player." ++ nl ++ nl
                 ++ "Player:" ++ nl ++ "Alice" ++ nl)
                ("Hardcore is **online** with 1 online player." ++ nl ++ nl
                 ++ "Player:" ++ nl ++ "Alice" ++ nl)
                100 100 empty_world
                (Forall_nil _) eq_refl eq_refl eq_refl eq_refl eq_refl eq_refl eq_refl)
    as H.
  cbv zeta in H. destruct H as [_ [_ [_ [_ [H _]]]]].
  exact (f_equal (map address) H).
Defined.
